(** * nsite-cli: the upload orchestrator and the purge loop

    A shallow embedding of [processUploads] (src/upload.ts) and of the
    purge loop of the [upload] command (src/cli.ts, lines 196-224).

    JavaScript values are modelled as follows.
    - A [number] is an integer or [NaN] (what [parseInt] can produce).
    - A [Map] is a [gmap]; an array is a [list].
    - Code that can throw runs in the monad [M S], a state monad over [S]
      whose result is either a thrown [Error] or a value; [tryCatch] and
      [tryFinally] are the statements of the same name.  Mutations made
      before a throw stay in the state, as in JavaScript.
    - Everything outside the repository (the file system, the blob
      servers, the relays, the signer) answers through an explicit
      scenario or oracle, so every theorem quantifies over all the
      answers the outside world can give. *)

From stdpp Require Import gmap strings list fin_maps.
From Stdlib Require Import ZArith Ascii Permutation.

Set Warnings "-clear-no-such-hyp".

Open Scope string_scope.
Open Scope list_scope.
Open Scope nat_scope.

(** ** JavaScript preliminaries *)

Module JS.

(** [number]: the integer-valued numbers and [NaN]. *)
Inductive number :=
| NaN
| Num (z : Z).

(** Truthiness of a number: [0] and [NaN] are falsy. *)
Definition number_truthy (n : number) : bool :=
  match n with
  | NaN => false
  | Num z => negb (z =? 0)%Z
  end.

(** Truthiness of a string: only the empty string is falsy. *)
Definition string_truthy (s : string) : bool :=
  match s with
  | EmptyString => false
  | String _ _ => true
  end.

(** [s.split("/")]: always a non-empty array. *)
Fixpoint split_slash (s : string) : list string :=
  match s with
  | EmptyString => [EmptyString]
  | String c rest =>
      if Ascii.eqb c "/"%char then EmptyString :: split_slash rest
      else match split_slash rest with
           | [] => [String c EmptyString]
           | seg :: segs => String c seg :: segs
           end
  end.

(** [arr.pop()] read as a value: the last element, [undefined] on []. *)
Definition pop (arr : list string) : option string := last arr.

(** [x || y] on a possibly undefined string. *)
Definition string_or (x : option string) (y : string) : string :=
  match x with
  | Some s => if string_truthy s then s else y
  | None => y
  end.

Definition is_digit (c : ascii) : bool :=
  let n := nat_of_ascii c in (48 <=? n) && (n <=? 57).

Definition digit_value (c : ascii) : Z := Z.of_nat (nat_of_ascii c - 48).

(** The white space [parseInt] skips (the ASCII part of it). *)
Definition is_space (c : ascii) : bool :=
  let n := nat_of_ascii c in
  (n =? 32) || ((9 <=? n) && (n <=? 13)).

Fixpoint skip_spaces (s : string) : string :=
  match s with
  | String c rest => if is_space c then skip_spaces rest else s
  | EmptyString => s
  end.

(** The digits at the front of [s], accumulated in base 10; [None]
    when [s] does not start with a digit. *)
Fixpoint digits (acc : option Z) (s : string) : option Z :=
  match s with
  | String c rest =>
      if is_digit c
      then digits (Some (10 * default 0%Z acc + digit_value c)%Z) rest
      else acc
  | EmptyString => acc
  end.

(** [parseInt(s, 10)] on ASCII input: leading white space, an optional
    sign, then the longest run of digits; [NaN] when there is none. *)
Definition parseInt (s : string) : number :=
  let s := skip_spaces s in
  let '(neg, s) :=
    match s with
    | String c rest =>
        if Ascii.eqb c "-"%char then (true, rest)
        else if Ascii.eqb c "+"%char then (false, rest)
        else (false, s)
    | EmptyString => (false, s)
    end in
  match digits None s with
  | Some z => Num (if neg : bool then - z else z)%Z
  | None => NaN
  end.

End JS.

(** ** Errors and the exception monad *)

Inductive Error :=
| PubkeyNotFound                      (* Error("User Pubkey not found.") *)
| NoFileName (localPath : string)     (* Error("Could not determine file name ...") *)
| TypeError (what : string)           (* thrown by a library on a bad argument *)
| External (what : string).           (* any error raised by the outside world *)

Definition M (S A : Type) : Type := S -> S * (Error + A).

Definition ret {S A} (a : A) : M S A := fun s => (s, inr a).

Definition bind {S A B} (m : M S A) (k : A -> M S B) : M S B :=
  fun s =>
    match m s with
    | (s', inr a) => k a s'
    | (s', inl e) => (s', inl e)
    end.

Definition throw {S A} (e : Error) : M S A := fun s => (s, inl e).

Definition modify {S} (f : S -> S) : M S unit := fun s => (f s, inr tt).

(** [try { body } catch (e) { handler e }] *)
Definition tryCatch {S A} (body : M S A) (handler : Error -> M S A) : M S A :=
  fun s =>
    match body s with
    | (s', inl e) => handler e s'
    | (s', inr a) => (s', inr a)
    end.

(** [try { body } finally { final }] *)
Definition tryFinally {S A} (body : M S A) (final : M S unit) : M S A :=
  fun s =>
    let '(s', r) := body s in
    match final s' with
    | (s'', inl e) => (s'', inl e)
    | (s'', inr _) => (s'', r)
    end.

(** [for (const x of xs) { body x }]: sequential, left at the first throw. *)
Fixpoint forEach {S A} (xs : list A) (body : A -> M S unit) : M S unit :=
  match xs with
  | [] => ret tt
  | x :: rest => bind (body x) (fun _ => forEach rest body)
  end.

Declare Scope js_scope.
Delimit Scope js_scope with js.
Notation "'let*' x := m 'in' k" := (bind m (fun x => k))
  (at level 10, x name, m at level 100, k at level 200) : js_scope.
Notation "m ';;;' k" := (bind m (fun _ => k))
  (at level 100, k at level 200, right associativity) : js_scope.

(** ** Data model (src/types.ts as used by the two files) *)

(** The part of an [NDKEvent] the purge loop touches. *)
Record NDKEvent := { id : string }.

Record FileEntry := {
  localPath : string;
  remotePath : string;
  sha256 : string;
  changedAt : Z;
  event : option NDKEvent
}.

Abbreviation FileList := (list FileEntry).

(** ** The upload orchestrator (src/upload.ts) *)

Module Upload.

Record UploadOptions := { concurrency : option JS.number }.

(** One element of [results.fileResults]. *)
Record FileResult := {
  file : string;
  success : bool;
  uploadedServers : nat;
  totalServers : nat
}.

(** The object [results] of lines 46-50. *)
Record Results := {
  successful : nat;
  failed : nat;
  fileResults : list FileResult
}.

(** What the function prints, one constructor per [console] call. *)
Inductive Line :=
| NoFilesToUpload
| UploadingHeader (files : nat) (limit : JS.number)
| UploadingFiles
| StatusUploading (name : string)
| StatusUploaded (name : string) (uploaded total failCount : nat)
| StatusFailed (name : string)
| ErrorUploading (localPath : string) (err : Error)
| StatusError (name : string) (err : Error)
| Summary (total okCount failCount : nat).

(** The state shared by all the tasks of one call. *)
Record Store := {
  results : Results;
  activeUploads : gmap string string;
  console : list Line
}.

Inductive ServerStatus := StPending | StSuccess | StError.

(** The per-file variables the two callbacks update (lines 84-89). *)
Record Progress := {
  serverStatus : gmap string ServerStatus;
  successCount : nat;
  failCount : nat
}.

(** What the outside world does to one file's task. *)
Record Scenario := {
  readFileSync : option Error;           (* [Some e]: the read throws [e] *)
  accepts : string -> bool;              (* does this endpoint store the blob *)
  multiServerUpload_rejects : option Error;
  publishNSiteEvent : option Error       (* [Some e]: the publish throws [e] *)
}.

(** The value the task's promise resolves to (lines 147 and 163). *)
Inductive TaskReturn :=
| Finished (r : FileResult)
| Caught (file : string) (err : Error).

Definition raise_if {S} (o : option Error) : M S unit :=
  match o with
  | Some e => throw e
  | None => ret tt
  end.

Definition log (l : Line) : M Store unit :=
  modify (fun st => {| results := results st;
                       activeUploads := activeUploads st;
                       console := console st ++ [l] |}).

Definition update_results (f : Results -> Results) : M Store unit :=
  modify (fun st => {| results := f (results st);
                       activeUploads := activeUploads st;
                       console := console st |}).

Definition update_active (f : gmap string string -> gmap string string) : M Store unit :=
  modify (fun st => {| results := results st;
                       activeUploads := f (activeUploads st);
                       console := console st |}).

(** [results.successful++] *)
Definition incr_successful (r : Results) : Results :=
  {| successful := S (successful r); failed := failed r; fileResults := fileResults r |}.

(** [results.failed++] *)
Definition incr_failed (r : Results) : Results :=
  {| successful := successful r; failed := S (failed r); fileResults := fileResults r |}.

(** [results.fileResults.push(x)] *)
Definition push (x : FileResult) (r : Results) : Results :=
  {| successful := successful r; failed := failed r; fileResults := fileResults r ++ [x] |}.

(** [onError] and [onUpload] of lines 99-110. *)
Definition onError (server : string) (p : Progress) : Progress :=
  {| serverStatus := <[server := StError]> (serverStatus p);
     successCount := successCount p;
     failCount := S (failCount p) |}.

Definition onUpload (server : string) (p : Progress) : Progress :=
  {| serverStatus := <[server := StSuccess]> (serverStatus p);
     successCount := S (successCount p);
     failCount := failCount p |}.

(** [multiServerUpload] of blossom-client-sdk, by its contract: every
    server is attempted, a success is reported to [onUpload] and
    stored in the returned [Map] under the server's name, a failure is
    reported to [onError]. *)
Definition multiServerUpload (reply : string -> bool) (servers : list string)
    (blob : string) (p0 : Progress) : Progress * gmap string string :=
  foldl (fun acc server =>
           if reply server
           then (onUpload server (fst acc), <[server := blob]> (snd acc))
           else (onError server (fst acc), snd acc))
        (p0, ∅) servers.

(** [f.localPath.split("/").pop() || f.localPath] *)
Definition shortFileName (f : FileEntry) : string :=
  JS.string_or (JS.pop (JS.split_slash (localPath f))) (localPath f).

Section Task.
Variable blossomServers : list string.
Variable f : FileEntry.
Variable sc : Scenario.

Local Open Scope js_scope.

(** Lines 61-70: what the task does when the limiter starts it. *)
Definition taskStart : M Store unit :=
  update_active (insert (shortFileName f) (remotePath f)) ;;;
  log (StatusUploading (shortFileName f)).

(** Lines 73-147: the [try] block.  The [File] object of lines 80-81
    and the progress log of lines 92-96 do not bear on the outcome and
    are left out. *)
Definition tryBlock : M Store TaskReturn :=
  raise_if (readFileSync sc) ;;;
  let* fileName :=
    match JS.pop (JS.split_slash (localPath f)) with
    | Some n => if JS.string_truthy n then ret n else throw (NoFileName (localPath f))
    | None => throw (NoFileName (localPath f))
    end in
  let pending :=
    {| serverStatus := foldl (fun m server => <[server := StPending]> m) ∅ blossomServers;
       successCount := 0;
       failCount := 0 |} in
  let reply := multiServerUpload (accepts sc) blossomServers (sha256 f) pending in
  raise_if (multiServerUpload_rejects sc) ;;;
  let uploads := snd reply in
  let uploadedServers := size uploads in
  let success := 0 <? uploadedServers in
  (if success
   then raise_if (publishNSiteEvent sc) ;;;
        update_results incr_successful ;;;
        log (StatusUploaded (shortFileName f) uploadedServers
               (length blossomServers) (failCount (fst reply)))
   else update_results incr_failed ;;;
        log (StatusFailed (shortFileName f))) ;;;
  let r := {| file := remotePath f; success := success;
              uploadedServers := uploadedServers;
              totalServers := length blossomServers |} in
  update_results (push r) ;;;
  ret (Finished r).

(** Lines 148-163: the [catch] block. *)
Definition catchBlock (err : Error) : M Store TaskReturn :=
  log (ErrorUploading (localPath f) err) ;;;
  update_results incr_failed ;;;
  log (StatusError (shortFileName f) err) ;;;
  update_results (push {| file := remotePath f; success := false;
                          uploadedServers := 0;
                          totalServers := length blossomServers |}) ;;;
  ret (Caught (remotePath f) err).

(** Lines 164-167: the [finally] block. *)
Definition finallyBlock : M Store unit :=
  update_active (delete (shortFileName f)).

(** Lines 72-167: the rest of the task. *)
Definition taskSettle : M Store TaskReturn :=
  tryFinally (tryCatch tryBlock catchBlock) finallyBlock.

(** The async function handed to [limit] (lines 60-168). *)
Definition uploadTask : M Store TaskReturn :=
  taskStart ;;; taskSettle.

End Task.

(** *** The limiter and the event loop

    [pLimit] comes from the package p-limit (4.x in package.json).  Its
    contract: the constructor throws a [TypeError] unless its argument
    is an integer from 1 up; the functions handed to [limit] are queued
    in call order, and the head of the queue is started whenever fewer
    than [concurrency] of them are running.

    A task touches the shared [results] only in the synchronous stretch
    after its last [await] (lines 121-147, 140-147 or 149-163), so for
    the shared state a task is two atomic steps: [taskStart] when the
    limiter starts it and [taskSettle] when it completes.  Which of the
    running tasks completes next is not decided by the program: the
    schedule [sched] supplies it, one number per completion. *)

Definition pLimit (c : JS.number) : Error + nat :=
  match c with
  | JS.Num z =>
      if (0 <? z)%Z then inr (Z.to_nat z)
      else inl (TypeError "Expected `concurrency` to be a number from 1 and up")
  | JS.NaN => inl (TypeError "Expected `concurrency` to be a number from 1 and up")
  end.

(** A file handed to the limiter, with what the world will do to it. *)
Record Task := { task_file : FileEntry; task_world : Scenario }.

(** One instant of the call: the queue of the limiter, the tasks that
    are running, and the shared state. *)
Record Loop := {
  waiting : list Task;
  inFlight : list Task;
  store : Store
}.

Inductive LoopResult :=
| Settled (st : Store)               (* every promise resolved *)
| Rejected (e : Error) (st : Store)   (* a promise rejected: [Promise.all] rejects *)
| Stalled (st : Store).              (* promises left that can never settle *)

Section Run.
Variable blossomServers : list string.
Variable limit : nat.

(** The limiter starts queued tasks while fewer than [limit] run.
    Returns the instants passed through and the instant reached. *)
Fixpoint startQueued (queue running : list Task) (st : Store) : list Loop * Loop :=
  match queue with
  | t :: rest =>
      if length running <? limit
      then let st' := fst (taskStart (task_file t) st) in
           let '(passed, reached) := startQueued rest (running ++ [t]) st' in
           ({| waiting := rest; inFlight := running ++ [t]; store := st' |} :: passed,
            reached)
      else ([], {| waiting := queue; inFlight := running; store := st |})
  | [] => ([], {| waiting := []; inFlight := running; store := st |})
  end.

(** [await Promise.all(uploadPromises)]: start what the limiter
    allows, let one running task complete, repeat.  [fuel] bounds the
    number of completions; one per file is enough ([eventLoop_spec]). *)
Fixpoint eventLoop (fuel : nat) (sched : list nat) (l : Loop) : list Loop * LoopResult :=
  let '(passed, l1) := startQueued (waiting l) (inFlight l) (store l) in
  match inFlight l1 with
  | [] => (passed, match waiting l1 with
                   | [] => Settled (store l1)
                   | _ :: _ => Stalled (store l1)
                   end)
  | t0 :: _ =>
      match fuel with
      | 0 => (passed, Stalled (store l1))
      | S fuel' =>
          let k := hd 0 sched mod length (inFlight l1) in
          let t := nth k (inFlight l1) t0 in
          match taskSettle blossomServers (task_file t) (task_world t) (store l1) with
          | (st', inl e) => (passed, Rejected e st')
          | (st', inr _) =>
              let l2 := {| waiting := waiting l1;
                           inFlight := delete k (inFlight l1);
                           store := st' |} in
              let '(later, r) := eventLoop fuel' (tl sched) l2 in
              (passed ++ l2 :: later, r)
          end
      end
  end.

End Run.

(** *** [processUploads] *)

(** How the call ends. *)
Inductive Completion :=
| Throws (e : Error)
| ReturnsUndefined              (* the bare [return;] of line 34 *)
| Returns (r : Results)
| NeverSettles.

Record Outcome := {
  completion : Completion;
  printed : list Line;
  instants : list Loop
}.

(** [options.concurrency || 5] *)
Definition concurrency_or_default (options : UploadOptions) : JS.number :=
  match concurrency options with
  | Some n => if JS.number_truthy n then n else JS.Num 5
  | None => JS.Num 5
  end.

(** [filesToUpload.map((f) => limit(...))]: the tasks in call order;
    [world i] is what the outside world does to the [i]-th file. *)
Definition tasks_of (filesToUpload : FileList) (world : nat -> Scenario) : list Task :=
  imap (fun i f => {| task_file := f; task_world := world i |}) filesToUpload.

Definition emptyResults : Results :=
  {| successful := 0; failed := 0; fileResults := [] |}.

Definition pubkey_truthy (pubkey : option string) : bool :=
  match pubkey with
  | Some s => JS.string_truthy s
  | None => false
  end.

(** [pubkey] is [ndk.activeUser?.pubkey]. *)
Definition processUploads (pubkey : option string) (filesToUpload : FileList)
    (blossomServers : list string) (world : nat -> Scenario)
    (options : UploadOptions) (sched : list nat) : Outcome :=
  if negb (pubkey_truthy pubkey)
  then {| completion := Throws PubkeyNotFound; printed := []; instants := [] |}
  else if length filesToUpload =? 0
  then {| completion := ReturnsUndefined; printed := [NoFilesToUpload]; instants := [] |}
  else
    let concurrency := concurrency_or_default options in
    match pLimit concurrency with
    | inl e => {| completion := Throws e; printed := []; instants := [] |}
    | inr limit =>
        let l0 := {| waiting := tasks_of filesToUpload world;
                     inFlight := [];
                     store := {| results := emptyResults;
                                 activeUploads := ∅;
                                 console := [UploadingHeader (length filesToUpload) concurrency;
                                             UploadingFiles] |} |} in
        let '(later, r) := eventLoop blossomServers limit (length filesToUpload) sched l0 in
        match r with
        | Settled st =>
            {| completion := Returns (results st);
               printed := console st ++ [Summary (length filesToUpload)
                                           (successful (results st))
                                           (failed (results st))];
               instants := l0 :: later |}
        | Rejected e st =>
            {| completion := Throws e; printed := console st; instants := l0 :: later |}
        | Stalled st =>
            {| completion := NeverSettles; printed := console st; instants := l0 :: later |}
        end
    end.

End Upload.

(** ** The [upload] command (src/cli.ts): options and the purge loop *)

Module Cli.

(** A delete authorization: the signed event [createDeleteAuth] returns. *)
Definition Auth := string.

(** What the purge loop prints. *)
Inductive Line :=
| DeletingBlob (sha256 server : string)
| ErrorDeletingBlob (sha256 server : string)
| DeletingEvent (id : string)
| PublishedDeletionEvent (id : string)
| ErrorDeletingEvent (id : string)
| Success
| FailedToFetchOnlineFiles (err : Error).

(** What the loop does to the outside world, in program order. *)
Inductive Action :=
| CreateDeleteAuth (sha256 : string)                 (* signs one delete authorization *)
| DeleteBlob (server sha256 : string) (auth : Auth)
| EventDelete (ev : NDKEvent)                        (* [file.event.delete(reason, true)] *)
| Console (l : Line).

(** The outside world: each answer may depend on everything done so far. *)
Record World := {
  createDeleteAuth : list Action -> string -> Error + Auth;
  deleteBlob : list Action -> string -> string -> Auth -> Error + unit;
  eventDelete : list Action -> NDKEvent -> Error + NDKEvent
}.

(** The state of the loop is the history of its actions. *)
Definition perform {A} (a : Action) (reply : list Action -> Error + A)
  : M (list Action) A :=
  fun h => (h ++ [a], reply h).

Definition print (l : Line) : M (list Action) unit :=
  modify (fun h => h ++ [Console l]).

Section Purge.
Variable w : World.
Variable blossomServers : list string.

Local Open Scope js_scope.

(** Lines 201-210: one endpoint. *)
Definition purgeServer (file : FileEntry) (deleteAuth : Auth) (s : string)
  : M (list Action) unit :=
  tryCatch
    (print (DeletingBlob (sha256 file) s) ;;;
     perform (DeleteBlob s (sha256 file) deleteAuth)
             (fun h => deleteBlob w h s (sha256 file) deleteAuth))
    (fun e => print (ErrorDeletingBlob (sha256 file) s)).

(** Lines 213-221: the retraction of the pointer record. *)
Definition purgeEvent (ev : NDKEvent) : M (list Action) unit :=
  tryCatch
    (print (DeletingEvent (id ev)) ;;;
     let* deletionEvent := perform (EventDelete ev) (fun h => eventDelete w h ev) in
     print (PublishedDeletionEvent (id deletionEvent)))
    (fun e => print (ErrorDeletingEvent (id ev))).

(** Lines 198-222: the body of the loop over [toDelete]. *)
Definition purgeFile (file : FileEntry) : M (list Action) unit :=
  match event file with
  | Some ev =>
      let* deleteAuth :=
        perform (CreateDeleteAuth (sha256 file))
                (fun h => createDeleteAuth w h (sha256 file)) in
      forEach blossomServers (purgeServer file deleteAuth) ;;;
      purgeEvent ev
  | None => ret tt
  end.

(** Lines 196-224. *)
Definition purge (purgeOption : bool) (toDelete : FileList) : M (list Action) unit :=
  if purgeOption then forEach toDelete purgeFile else ret tt.

(** Lines 196-234 inside the [try] of line 151: the exit code. *)
Definition purgeAndExit (purgeOption : bool) (toDelete : FileList)
  : M (list Action) nat :=
  tryCatch
    (purge purgeOption toDelete ;;; print Success ;;; ret 0)
    (fun error => print (FailedToFetchOnlineFiles error) ;;; ret 1).

End Purge.

(** Line 190: [options.concurrency ? parseInt(options.concurrency, 10) : 5] *)
Definition concurrencyOption (concurrency : option string) : JS.number :=
  match concurrency with
  | Some s => if JS.string_truthy s then JS.parseInt s else JS.Num 5
  | None => JS.Num 5
  end.

(** Lines 188-192: the call of [processUploads]; [None] when it is skipped. *)
Definition runUploads (pubkey : option string) (toTransfer : FileList)
    (blossomServers : list string) (world : nat -> Upload.Scenario)
    (concurrency : option string) (sched : list nat) : option Upload.Outcome :=
  if 0 <? length toTransfer
  then Some (Upload.processUploads pubkey toTransfer blossomServers world
               {| Upload.concurrency := Some (concurrencyOption concurrency) |} sched)
  else None.

(** The actions of each kind in a history. *)
Definition signings (h : list Action) : list string :=
  omap (fun a => match a with CreateDeleteAuth sha => Some sha | _ => None end) h.

Definition deletions (h : list Action) : list (string * string * Auth) :=
  omap (fun a => match a with DeleteBlob s sha auth => Some (s, sha, auth) | _ => None end) h.

Definition retractions (h : list Action) : list NDKEvent :=
  omap (fun a => match a with EventDelete ev => Some ev | _ => None end) h.

End Cli.

(** ** What a call is expected to leave behind *)

Module Outcomes.
Import Upload.

(** The entry the [catch] block records. *)
Definition failedEntry (servers : list string) (f : FileEntry) : FileResult :=
  {| file := remotePath f; success := false; uploadedServers := 0;
     totalServers := length servers |}.

(** The [Map] [multiServerUpload] resolves to for this file. *)
Definition uploadsOf (servers : list string) (f : FileEntry) (sc : Scenario)
  : gmap string string :=
  snd (multiServerUpload (accepts sc) servers (sha256 f)
         {| serverStatus := foldl (fun m server => <[server := StPending]> m) ∅ servers;
            successCount := 0; failCount := 0 |}).

(** The endpoints of [servers] that accept the blob, one per attempt. *)
Definition acceptingEndpoints (servers : list string) (sc : Scenario) : list string :=
  List.filter (accepts sc) servers.

(** The error the [try] block throws, if it throws. *)
Definition thrown (servers : list string) (f : FileEntry) (sc : Scenario) : option Error :=
  match readFileSync sc with
  | Some e => Some e
  | None =>
      match JS.pop (JS.split_slash (localPath f)) with
      | Some n =>
          if JS.string_truthy n
          then match multiServerUpload_rejects sc with
               | Some e => Some e
               | None => if 0 <? size (uploadsOf servers f sc)
                         then publishNSiteEvent sc else None
               end
          else Some (NoFileName (localPath f))
      | None => Some (NoFileName (localPath f))
      end
  end.

(** The entry a task leaves in [results.fileResults]. *)
Definition recorded (servers : list string) (f : FileEntry) (sc : Scenario) : FileResult :=
  match thrown servers f sc with
  | Some _ => failedEntry servers f
  | None => {| file := remotePath f;
               success := 0 <? size (uploadsOf servers f sc);
               uploadedServers := size (uploadsOf servers f sc);
               totalServers := length servers |}
  end.

(** Counting one entry into the aggregate. *)
Definition tally (r : FileResult) (res : Results) : Results :=
  {| successful := successful res + (if success r then 1 else 0);
     failed := failed res + (if success r then 0 else 1);
     fileResults := fileResults res ++ [r] |}.

Section Run.
Variable blossomServers : list string.
Variable limit : nat.

Definition recordedTask (t : Task) : FileResult :=
  recorded blossomServers (task_file t) (task_world t).

(** The aggregate after the tasks of [order] completed in that order. *)
Definition tallyAll (order : list Task) (res : Results) : Results :=
  foldl (fun acc t => tally (recordedTask t) acc) res order.

(** What holds at every instant, for the tasks [all] in call order:
    at most [limit] tasks run, the queue is the rest of the call
    order, and the running tasks were started in that order. *)
Definition fifo (all : list Task) (l : Loop) : Prop :=
  length (inFlight l) <= limit /\
  exists started, all = started ++ waiting l /\ inFlight l `sublist_of` started.

End Run.

(** The limiter accepts every concurrency option but a negative one. *)
Definition limiterAccepts (options : UploadOptions) : Prop :=
  forall z, concurrency options = Some (JS.Num z) -> (0 <= z)%Z.

End Outcomes.

(** ** Concrete inputs *)

Module Examples.
Import Upload.

Definition indexHtml : FileEntry :=
  {| localPath := "site/index.html"; remotePath := "/index.html";
     sha256 := "a1"; changedAt := 1700000000%Z; event := None |}.

Definition aboutHtml : FileEntry :=
  {| localPath := "site/about.html"; remotePath := "/about.html";
     sha256 := "b2"; changedAt := 1700000001%Z; event := None |}.

(** Every call succeeds. *)
Definition allGood : Scenario :=
  {| readFileSync := None; accepts := fun _ => true;
     multiServerUpload_rejects := None; publishNSiteEvent := None |}.

(** No endpoint stores the blob. *)
Definition noEndpoint : Scenario :=
  {| readFileSync := None; accepts := fun _ => false;
     multiServerUpload_rejects := None; publishNSiteEvent := None |}.

(** Only the endpoint [server] stores the blob. *)
Definition onlyEndpoint (server : string) : Scenario :=
  {| readFileSync := None; accepts := String.eqb server;
     multiServerUpload_rejects := None; publishNSiteEvent := None |}.

(** The endpoints store the blob, then the relays refuse the event. *)
Definition publishFails (sc : Scenario) : Scenario :=
  {| readFileSync := readFileSync sc; accepts := accepts sc;
     multiServerUpload_rejects := multiServerUpload_rejects sc;
     publishNSiteEvent := Some (External "publish failed") |}.

(** The local file cannot be read. *)
Definition unreadable : Scenario :=
  {| readFileSync := Some (External "ENOENT"); accepts := fun _ => true;
     multiServerUpload_rejects := None; publishNSiteEvent := None |}.

Definition threeServers : list string :=
  ["https://one.example"; "https://two.example"; "https://three.example"].

Definition defaults : UploadOptions := {| concurrency := None |}.

Definition fiveFiles : FileList :=
  [indexHtml; aboutHtml; indexHtml; aboutHtml; indexHtml].

(** A file of the remote listing, with the event it was listed from. *)
Definition oldHtml : FileEntry :=
  {| localPath := ""; remotePath := "/old.html"; sha256 := "c3";
     changedAt := 1600000000%Z; event := Some {| id := "event-c3" |} |}.

(** A file with no event behind it. *)
Definition strayHtml : FileEntry :=
  {| localPath := ""; remotePath := "/stray.html"; sha256 := "d4";
     changedAt := 1600000001%Z; event := None |}.

Definition twoServers : list string :=
  ["https://one.example"; "https://two.example"].

(** Signing works, the first endpoint throws on every deletion, the
    relays refuse the deletion event. *)
Definition flakyWorld : Cli.World :=
  {| Cli.createDeleteAuth := fun _ sha => inr ("auth-" +:+ sha);
     Cli.deleteBlob := fun _ s _ _ =>
       if String.eqb s "https://one.example" then inl (External "HTTP 500") else inr tt;
     Cli.eventDelete := fun _ _ => inl (External "relay closed") |}.

(** The signer refuses. *)
Definition noSigner : Cli.World :=
  {| Cli.createDeleteAuth := fun _ _ => inl (External "no signer");
     Cli.deleteBlob := fun _ _ _ _ => inr tt;
     Cli.eventDelete := fun _ ev => inr ev |}.

End Examples.

(** ** What can be observed of a run *)

Module Observations.
Import Upload Outcomes.

(** The first instant of a call that gets as far as the event loop. *)
Definition initialLoop (filesToUpload : FileList) (world : nat -> Scenario)
    (options : UploadOptions) : Loop :=
  {| waiting := tasks_of filesToUpload world;
     inFlight := [];
     store := {| results := emptyResults;
                 activeUploads := ∅;
                 console := [UploadingHeader (length filesToUpload)
                               (concurrency_or_default options);
                             UploadingFiles] |} |}.

(** The name a task registers in [activeUploads]. *)
Definition taskName (t : Task) : string := shortFileName (task_file t).

(** The names of the tasks in flight. *)
Definition namesInFlight (l : Loop) : gset string :=
  list_to_set (map taskName (inFlight l)).

(** The files announced by a "→ Uploading" line, in print order. *)
Definition announced (c : list Line) : list string :=
  omap (fun l => match l with StatusUploading n => Some n | _ => None end) c.

Definition isUploadedLine (l : Line) : bool :=
  match l with StatusUploaded _ _ _ _ => true | _ => false end.

(** "✗ Failed" and "✗ Error". *)
Definition isFailureLine (l : Line) : bool :=
  match l with StatusFailed _ | StatusError _ _ => true | _ => false end.

(** The [failCount] of a file when [multiServerUpload] has resolved. *)
Definition failCountOf (servers : list string) (f : FileEntry) (sc : Scenario) : nat :=
  failCount (fst (multiServerUpload (accepts sc) servers (sha256 f)
                    {| serverStatus := foldl (fun m server => <[server := StPending]> m)
                                         ∅ servers;
                       successCount := 0; failCount := 0 |})).

(** The lines a task prints after its start line. *)
Definition linesOf (servers : list string) (f : FileEntry) (sc : Scenario) : list Line :=
  match thrown servers f sc with
  | Some e => [ErrorUploading (localPath f) e; StatusError (shortFileName f) e]
  | None =>
      if 0 <? size (uploadsOf servers f sc)
      then [StatusUploaded (shortFileName f) (size (uploadsOf servers f sc))
              (length servers) (failCountOf servers f sc)]
      else [StatusFailed (shortFileName f)]
  end.

(** The value a task resolves to. *)
Definition returnOf (servers : list string) (f : FileEntry) (sc : Scenario) : TaskReturn :=
  match thrown servers f sc with
  | Some e => Caught (remotePath f) e
  | None => Finished (recorded servers f sc)
  end.

(** No "/" in the string. *)
Fixpoint slashFree (s : string) : bool :=
  match s with
  | EmptyString => true
  | String c rest => negb (Ascii.eqb c "/"%char) && slashFree rest
  end.

(** The per-file variables before [multiServerUpload] is called. *)
Definition pendingProgress (servers : list string) : Progress :=
  {| serverStatus := foldl (fun m server => <[server := StPending]> m) ∅ servers;
     successCount := 0;
     failCount := 0 |}.

End Observations.

(** ** More of the command line (src/cli.ts) *)

(** String operations of JavaScript the command uses. *)
Module Text.

(** [s.split(sep)] for a one-character separator: always non-empty. *)
Fixpoint splitOn (sep : ascii) (s : string) : list string :=
  match s with
  | EmptyString => [EmptyString]
  | String c rest =>
      if Ascii.eqb c sep then EmptyString :: splitOn sep rest
      else match splitOn sep rest with
           | [] => [String c EmptyString]
           | seg :: segs => String c seg :: segs
           end
  end.

(** [arr.join(sep)] for a one-character separator. *)
Fixpoint joinWith (sep : ascii) (arr : list string) : string :=
  match arr with
  | [] => EmptyString
  | [x] => x
  | x :: rest => x +:+ String sep (joinWith sep rest)
  end.

(** The character [sep] does not occur in [s]. *)
Fixpoint freeOf (sep : ascii) (s : string) : bool :=
  match s with
  | EmptyString => true
  | String c rest => negb (Ascii.eqb c sep) && freeOf sep rest
  end.

(** [s.replace(/\/+$/, empty)]: [s] without its trailing slashes. *)
Fixpoint stripTrailingSlashes (s : string) : string :=
  match s with
  | EmptyString => EmptyString
  | String c rest =>
      match stripTrailingSlashes rest with
      | EmptyString => if Ascii.eqb c "/"%char then EmptyString else String c EmptyString
      | kept => String c kept
      end
  end.

(** [s.replace(/^\/+/, empty)]: [s] without its leading slashes. *)
Fixpoint stripLeadingSlashes (s : string) : string :=
  match s with
  | EmptyString => EmptyString
  | String c rest => if Ascii.eqb c "/"%char then stripLeadingSlashes rest else s
  end.

(** [n] slashes. *)
Fixpoint slashes (n : nat) : string :=
  match n with
  | 0 => EmptyString
  | S n' => String "/"%char (slashes n')
  end.

(** The last character of [s] is not a slash. *)
Fixpoint endsWithoutSlash (s : string) : bool :=
  match s with
  | EmptyString => true
  | String c EmptyString => negb (Ascii.eqb c "/"%char)
  | String _ rest => endsWithoutSlash rest
  end.


End Text.

(** [initNdk] (lines 40-69). *)
Module Ndk.

(** The module-level [ndk] object, as far as [initNdk] sets it up. *)
Record NDK := {
  explicitRelayUrls : list string;
  signer : option string;          (* the key the signer was made from *)
  connected : bool
}.

(** The outside of [initNdk]: [nip19.decode(key).data], the user of a
    [NDKPrivateKeySigner] made from a key, and [ndk.connect()]. *)
Record World := {
  decode : string -> Error + string;
  signerUser : string -> Error + string;
  connect : list string -> Error + unit
}.

Definition fallbackRelays : list string :=
  ["wss://nos.lol"; "wss://relay.primal.net"; "wss://relay.nostr.band"; "wss://relay.damus.io"].

(** [[...new Set(xs).values()]]: the elements of [xs] in the order of
    their first occurrence; [seen] holds what the set already has. *)
Fixpoint setValues (seen : list string) (xs : list string) : list string :=
  match xs with
  | [] => []
  | x :: rest =>
      if bool_decide (x ∈ seen) then setValues seen rest
      else x :: setValues (x :: seen) rest
  end.

(** Lines 41-45. *)
Definition uniqueRelays (relays NOSTR_RELAYS : list string) : list string :=
  let uniqueRelays := setValues [] (relays ++ NOSTR_RELAYS) in
  if length uniqueRelays =? 0 then fallbackRelays else uniqueRelays.

(** [Error("NIP46 not implemented")] *)
Definition nip46NotImplemented : Error := External "NIP46 not implemented".

(** An answer of the outside world: a throw or a value. *)
Definition answer {S A} (r : Error + A) : M S A := fun s => (s, r).

Local Open Scope js_scope.

(** [NOSTR_RELAYS] comes from src/env.ts. *)
Definition initNdk (w : World) (NOSTR_RELAYS : list string)
    (privateKey : string) (relays : list string) : M (option NDK) string :=
  let uniqueRelays := uniqueRelays relays NOSTR_RELAYS in
  modify (fun _ => Some {| explicitRelayUrls := uniqueRelays;
                           signer := None; connected := false |}) ;;;
  let* user :=
    (if String.prefix "npub1" privateKey
     then answer (decode w privateKey)
     else if String.prefix "bunker://" privateKey
     then throw nip46NotImplemented
     else let* user := answer (signerUser w privateKey) in
          modify (fun ndk =>
                    match ndk with
                    | Some n => Some {| explicitRelayUrls := explicitRelayUrls n;
                                        signer := Some privateKey;
                                        connected := connected n |}
                    | None => None
                    end) ;;;
          ret user) in
  answer (connect w uniqueRelays) ;;;
  modify (fun ndk =>
            match ndk with
            | Some n => Some {| explicitRelayUrls := explicitRelayUrls n;
                                signer := signer n;
                                connected := true |}
            | None => None
            end) ;;;
  ret user.

(** Line 130 (and 254, 282): the relays handed to [initNdk], from the
    project file and from [--relays]. *)
Definition relayArguments (projectRelays : option (list string))
    (optionRelays : option string) : list string :=
  default [] projectRelays
  ++ match optionRelays with
     | Some s => Text.splitOn ","%char s
     | None => []
     end.

End Ndk.

(** The [download] command, lines 301-334: the loop over the files to
    fetch and the summary. *)
Module Download.

Inductive Line :=
| DownloadingFiles
| Downloaded (remotePath server : string)                       (* "✓ Downloaded" *)
| LogFailedToDownload (remotePath server : string) (err : Error) (* debug log *)
| NoServersAvailable (remotePath : string)                      (* "✗ Failed" *)
| DownloadSummary
| TotalFiles (n : nat)
| SuccessfullyDownloaded (n : nat)
| FailedFiles (n : nat).

Inductive Action :=
| Mkdir (dir : string)
| DownloadBlob (server sha256 : string)
| WriteFile (path content : string)
| Console (l : Line).

Section Fs.

(** The file system is the operating system's: a state [FS] read by
    [existsSync]; [path.join] and [path.dirname] are Node's. *)
Variable FS : Type.
Variable existsSync : FS -> string -> bool.
Variable join : string -> string -> string.
Variable dirname : string -> string.

(** The outside world.  A file-system call leaves a new state and may
    throw; a download yields a response, or throws, and reading the
    response's body may throw as well. *)
Record World := {
  mkdirSync : FS -> string -> FS * option Error;
  downloadBlob : list Action -> string -> string -> Error + (Error + string);
  writeFileSync : FS -> string -> string -> FS * option Error
}.

Record State := { fs : FS; history : list Action }.

Variable w : World.

Definition act (a : Action) : M State unit :=
  modify (fun st => {| fs := fs st; history := history st ++ [a] |}).

Definition fsCall (a : Action) (op : FS -> FS * option Error) : M State unit :=
  fun st =>
    let '(fs', err) := op (fs st) in
    ({| fs := fs'; history := history st ++ [a] |},
     match err with Some e => inl e | None => inr tt end).

(** [await BlossomClient.downloadBlob(server, sha256)] followed by
    [await content.arrayBuffer()]. *)
Definition fetchBlob (server sha256 : string) : M State string :=
  fun st =>
    ({| fs := fs st; history := history st ++ [DownloadBlob server sha256] |},
     match downloadBlob w (history st) server sha256 with
     | inl e => inl e
     | inr body => body
     end).

Local Open Scope js_scope.

(** Lines 311-321: one turn of the loop over the servers; [true] is the
    [break] after a download that worked. *)
Definition tryServer (file : FileEntry) (filePath server : string) : M State bool :=
  tryCatch
    (let* content := fetchBlob server (sha256 file) in
     fsCall (WriteFile filePath content) (fun fs => writeFileSync w fs filePath content) ;;;
     act (Console (Downloaded (remotePath file) server)) ;;;
     ret true)
    (fun error =>
       act (Console (LogFailedToDownload (remotePath file) server error)) ;;;
       ret false).

(** Lines 308-322: the loop over the servers; the result is
    [downloadSuccess]. *)
Fixpoint tryServers (file : FileEntry) (filePath : string) (servers : list string)
  : M State bool :=
  match servers with
  | [] => ret false
  | server :: rest =>
      let* downloadSuccess := tryServer file filePath server in
      if downloadSuccess then ret true else tryServers file filePath rest
  end.

(** Lines 303-325: the body of the loop over the files. *)
Definition downloadFile (targetFolder : string) (blossomServers : list string)
    (file : FileEntry) : M State unit :=
  let filePath := join targetFolder (remotePath file) in
  let dir := dirname filePath in
  (fun st => if existsSync (fs st) dir
             then ret tt st
             else fsCall (Mkdir dir) (fun fs => mkdirSync w fs dir) st) ;;;
  let* downloadSuccess := tryServers file filePath blossomServers in
  if downloadSuccess then ret tt
  else act (Console (NoServersAvailable (remotePath file))).

(** Lines 330-331: the files of [toTransfer] that are on disk. *)
Definition successfulCount (targetFolder : string) (toTransfer : FileList) (disk : FS) : nat :=
  length toTransfer
  - length (List.filter (fun f => negb (existsSync disk (join targetFolder (remotePath f))))
              toTransfer).

(** Lines 301-334; the value is the exit code. *)
Definition downloadAll (targetFolder : string) (blossomServers : list string)
    (toTransfer : FileList) : M State nat :=
  act (Console DownloadingFiles) ;;;
  forEach toTransfer (downloadFile targetFolder blossomServers) ;;;
  act (Console DownloadSummary) ;;;
  act (Console (TotalFiles (length toTransfer))) ;;;
  let* count := (fun st => (st, inr (successfulCount targetFolder toTransfer (fs st)))) in
  act (Console (SuccessfullyDownloaded count)) ;;;
  act (Console (FailedFiles (length toTransfer - count))) ;;;
  ret 0.

End Fs.

(** The actions of each kind in a history. *)
Definition requests (h : list Action) : list (string * string) :=
  omap (fun a => match a with DownloadBlob s sha => Some (s, sha) | _ => None end) h.

Definition downloadedLines (h : list Action) : list (string * string) :=
  omap (fun a => match a with Console (Downloaded p s) => Some (p, s) | _ => None end) h.

Definition failedLines (h : list Action) : list string :=
  omap (fun a => match a with Console (NoServersAvailable p) => Some p | _ => None end) h.

End Download.

(** The [upload] command, lines 151-234: everything inside the [try]. *)
Module Command.

(** The options of the command and the project file, as far as the
    [try] block reads them. *)
Record Options := {
  force : bool;
  purge : bool;
  servers : option string;
  fallback : option string;
  concurrency : option string;
  publishServerList : bool
}.

Record ProjectData := {
  projectServers : option (list string);
  projectFallback : option string;
  projectPublishServerList : bool
}.

(** The three lists [compareFiles] returns. *)
Record Comparison := {
  toTransfer : FileList;
  existing : FileList;
  toDelete : FileList
}.

Inductive Line :=
| FilesFoundLocally (n : nat) (folder : string)
| FilesAvailableOnline (n : nat)
| ComparisonCounts (transfer unchanged delete : nat)
| Success
| FailedToFetchOnlineFiles (err : Error).

(** What the block does, in program order. *)
Inductive Step :=
| FindBlossomServers (publish : bool) (configured : list string)
| CopyFile (src dst : string)
| FindAllLocalFiles (folder : string)
| FindRemoteFiles
| CompareFileLists (localFiles onlineFiles : FileList)
| ProcessUploads (files : FileList) (blossomServers : list string)
    (options : Upload.UploadOptions)
| Purge (a : Cli.Action)
| Console (l : Line).

(** The outside of the block: src/blossom.ts, src/files.ts, src/nostr.ts
    and the file system answer through these; the uploads and the purge
    loop have the worlds of their own models. *)
Record World := {
  findBlossomServers : bool -> list string -> Error + list string;
  copyFile : string -> string -> Error + unit;
  findAllLocalFiles : string -> Error + FileList;
  findRemoteFiles : Error + FileList;
  compareFileLists : FileList -> FileList -> Error + Comparison;
  activePubkey : option string;            (* [ndk.activeUser?.pubkey] *)
  uploadWorld : nat -> Upload.Scenario;
  uploadSchedule : list nat;
  purgeWorld : Cli.World
}.

(** [Error(`No files found in local source folder ${folder}.`)] *)
Definition noFilesFound (folder : string) : Error :=
  External ("No files found in local source folder " +:+ folder +:+ ".").

Definition call {A} (s : Step) (r : Error + A) : M (list Step) A :=
  fun h => (h ++ [s], r).

Definition print (l : Line) : M (list Step) unit :=
  modify (fun h => h ++ [Console l]).

(** [x || y] on optional strings. *)
Definition orString (x y : option string) : option string :=
  match x with
  | Some s => if JS.string_truthy s then x else y
  | None => y
  end.

(** Lines 153-156: the servers handed to [findBlossomServers]. *)
Definition configuredServers (project : ProjectData) (options : Options) : list string :=
  default [] (projectServers project)
  ++ match servers options with
     | Some s => Text.splitOn ","%char s
     | None => []
     end.

(** Lines 160-162: source and destination of the 404 copy. *)
Definition fallbackPaths (fileOrFolder fallbackFor404 : string) : string * string :=
  let sourceFolder := Text.stripTrailingSlashes fileOrFolder in
  (sourceFolder +:+ "/" +:+ Text.stripLeadingSlashes fallbackFor404,
   sourceFolder +:+ "/404.html").

(** Line 183-186: the files to upload. *)
Definition filesToUpload (options : Options) (c : Comparison) : FileList :=
  if force options then toTransfer c ++ existing c else toTransfer c.

(** How the process ends: with an exit code, or never. *)
Inductive Exit :=
| ExitCode (n : nat)
| Hangs.

Section Block.
Variable w : World.
Variable project : ProjectData.
Variable options : Options.
Variable fileOrFolder : string.

Local Open Scope js_scope.

(** Lines 188-192: the uploads.  The result of [processUploads] is not
    used; a throw is passed on; [false] stands for a call that never
    settles. *)
Definition uploads (files : FileList) (blossomServers : list string) : M (list Step) bool :=
  if 0 <? length files
  then
    let uploadOptions :=
      {| Upload.concurrency := Some (Cli.concurrencyOption (concurrency options)) |} in
    match Upload.completion
            (Upload.processUploads (activePubkey w) files blossomServers (uploadWorld w)
               uploadOptions (uploadSchedule w)) with
    | Upload.Throws e => call (ProcessUploads files blossomServers uploadOptions) (inl e)
    | Upload.NeverSettles =>
        call (ProcessUploads files blossomServers uploadOptions) (inr false)
    | _ => call (ProcessUploads files blossomServers uploadOptions) (inr true)
    end
  else ret true.

(** Lines 196-224: the purge loop, run on a history of its own. *)
Definition purgeLoop (blossomServers : list string) (files : FileList) : M (list Step) unit :=
  fun h =>
    let '(actions, r) := Cli.purge (purgeWorld w) blossomServers (purge options) files [] in
    (h ++ map Purge actions, r).

(** Lines 158-165: the copy of the 404 page. *)
Definition copyFallback : M (list Step) unit :=
  match orString (fallback options) (projectFallback project) with
  | Some fallbackFor404 =>
      if JS.string_truthy fallbackFor404
      then let '(src, dst) := fallbackPaths fileOrFolder fallbackFor404 in
           call (CopyFile src dst) (copyFile w src dst)
      else ret tt
  | None => ret tt
  end.

(** Lines 152-230: the body of the [try]. *)
Definition tryBody : M (list Step) Exit :=
  let publishBlossomServerList :=
    publishServerList options || projectPublishServerList project in
  let* blossomServers :=
    call (FindBlossomServers publishBlossomServerList (configuredServers project options))
         (findBlossomServers w publishBlossomServerList (configuredServers project options)) in
  copyFallback ;;;
  let* localFiles :=
    call (FindAllLocalFiles fileOrFolder) (findAllLocalFiles w fileOrFolder) in
  (if length localFiles =? 0 then throw (noFilesFound fileOrFolder) else ret tt) ;;;
  print (FilesFoundLocally (length localFiles) fileOrFolder) ;;;
  let* onlineFiles := call FindRemoteFiles (findRemoteFiles w) in
  print (FilesAvailableOnline (length onlineFiles)) ;;;
  let* c := call (CompareFileLists localFiles onlineFiles)
                 (compareFileLists w localFiles onlineFiles) in
  print (ComparisonCounts (length (toTransfer c)) (length (existing c))
           (length (toDelete c))) ;;;
  let* settled := uploads (filesToUpload options c) blossomServers in
  if settled : bool
  then purgeLoop blossomServers (toDelete c) ;;;
       print Success ;;;
       ret (ExitCode 0)
  else ret Hangs.

(** Lines 151-234: [try { ... process.exit(0) } catch (error) { ...
    process.exit(1) }]. *)
Definition run : M (list Step) Exit :=
  tryCatch tryBody
    (fun error => print (FailedToFetchOnlineFiles error) ;;; ret (ExitCode 1)).

End Block.

(** The parts of a history. *)
Definition uploadCalls (h : list Step) : list (FileList * list string) :=
  omap (fun s => match s with ProcessUploads fs bs _ => Some (fs, bs) | _ => None end) h.

Definition purgeActions (h : list Step) : list Cli.Action :=
  omap (fun s => match s with Purge a => Some a | _ => None end) h.

Definition remoteQueries (h : list Step) : nat :=
  length (List.filter (fun s => match s with FindRemoteFiles => true | _ => false end) h).

End Command.

(** ** Concrete inputs for the commands *)

Module CommandExamples.

(** A disk as the list of the paths that exist. *)
Definition onDisk (disk : list string) (path : string) : bool :=
  existsb (String.eqb path) disk.

Definition joinPath (folder path : string) : string := folder +:+ path.

(** Every file sits directly in its folder here. *)
Definition folderOf (path : string) : string := "site".

(** A world in which only the second server delivers. *)
Definition secondServerDelivers : Download.World (list string) :=
  {| Download.mkdirSync := fun disk dir => (dir :: disk, None);
     Download.downloadBlob := fun _ server _ =>
       if String.eqb server "https://two.example" then inr (inr "<html>")
       else inl (External "HTTP 404");
     Download.writeFileSync := fun disk path _ => (path :: disk, None) |}.

(** A world in which no server delivers anything. *)
Definition nothingDelivered : Download.World (list string) :=
  {| Download.mkdirSync := fun disk dir => (dir :: disk, None);
     Download.downloadBlob := fun _ _ _ => inl (External "HTTP 404");
     Download.writeFileSync := fun disk path _ => (path :: disk, None) |}.

Definition changedHtml : FileEntry :=
  {| localPath := ""; remotePath := "/index.html"; sha256 := "a1";
     changedAt := 1700000000%Z; event := None |}.

Definition emptyDisk : Download.State (list string) :=
  {| Download.fs := ["site"]; Download.history := [] |}.

(** The local copy of the changed file is there already. *)
Definition staleDisk : Download.State (list string) :=
  {| Download.fs := ["site"; "site/index.html"]; Download.history := [] |}.

(** No project file settings. *)
Definition noProject : Command.ProjectData :=
  {| Command.projectServers := None; Command.projectFallback := None;
     Command.projectPublishServerList := false |}.

(** [--servers https://one.example,https://two.example] with the given
    [--concurrency], with or without [--purge]. *)
Definition uploadOptions (concurrency : string) (purge : bool) : Command.Options :=
  {| Command.force := false; Command.purge := purge;
     Command.servers := Some "https://one.example,https://two.example";
     Command.fallback := None; Command.concurrency := Some concurrency;
     Command.publishServerList := false |}.

(** A site with the given local files, all of them new, and one old file
    online.  No endpoint stores an upload, the first endpoint throws on
    every deletion and the relays refuse the deletion events. *)
Definition brokenSite (localFiles : FileList) : Command.World :=
  {| Command.findBlossomServers := fun _ configured => inr configured;
     Command.copyFile := fun _ _ => inr tt;
     Command.findAllLocalFiles := fun _ => inr localFiles;
     Command.findRemoteFiles := inr [Examples.oldHtml];
     Command.compareFileLists := fun l o =>
       inr {| Command.toTransfer := l; Command.existing := []; Command.toDelete := o |};
     Command.activePubkey := Some "pubkey";
     Command.uploadWorld := fun _ => Examples.noEndpoint;
     Command.uploadSchedule := [];
     Command.purgeWorld := Examples.flakyWorld |}.

End CommandExamples.

(** ** What the purge loop is expected to do *)

Module PurgeObservations.

(** The events of the files that have one, in list order. *)
Definition eventsOf (files : FileList) : list NDKEvent := omap event files.

(** The hashes of the files that have an event, in list order. *)
Definition hashesOf (files : FileList) : list string :=
  omap (fun f => match event f with Some _ => Some (sha256 f) | None => None end) files.

(** Every file that has an event, against every server. *)
Definition targetsOf (servers : list string) (files : FileList) : list (string * string) :=
  flat_map (fun f => match event f with
                     | Some _ => map (fun s => (s, sha256 f)) servers
                     | None => []
                     end) files.

(** The server and hash of each deletion of a history. *)
Definition deletionTargets (h : list Cli.Action) : list (string * string) :=
  map (fun d => (fst (fst d), snd (fst d))) (Cli.deletions h).

End PurgeObservations.

(** ** Facts about one upload task *)

Module TaskFacts.
Import Upload Outcomes.

Lemma multiServerUpload_dom reply servers blob p0 (m0 : gmap string string) :
  dom (snd (foldl (fun acc server =>
                     if reply server : bool
                     then (onUpload server (fst acc), <[server := blob]> (snd acc))
                     else (onError server (fst acc), snd acc))
                  (p0, m0) servers))
  = dom m0 ∪ list_to_set (List.filter reply servers).
Proof.
  revert p0 m0. induction servers as [|s servers IH]; intros p0 m0; simpl.
  - set_solver.
  - destruct (reply s) eqn:Hs; rewrite IH; simpl.
    + rewrite dom_insert_L. set_solver.
    + reflexivity.
Qed.

Lemma uploadsOf_dom servers f sc :
  dom (uploadsOf servers f sc) = list_to_set (acceptingEndpoints servers sc).
Proof.
  unfold uploadsOf, multiServerUpload, acceptingEndpoints.
  rewrite multiServerUpload_dom. set_solver.
Qed.

Lemma uploadsOf_size_NoDup servers f sc :
  NoDup servers ->
  size (uploadsOf servers f sc) = length (acceptingEndpoints servers sc).
Proof.
  intros Hnd. rewrite <- size_dom, uploadsOf_dom.
  apply size_list_to_set. unfold acceptingEndpoints.
  apply NoDup_ListNoDup, List.NoDup_filter, NoDup_ListNoDup, Hnd.
Qed.

Lemma uploadsOf_size_pos servers f sc :
  0 < size (uploadsOf servers f sc) <-> exists s, s ∈ servers /\ accepts sc s = true.
Proof.
  rewrite <- size_dom, uploadsOf_dom. unfold acceptingEndpoints. split.
  - intros Hpos. apply size_pos_elem_of in Hpos as [s Hs].
    apply elem_of_list_to_set, list_elem_of_In, List.filter_In in Hs.
    destruct Hs as [Hin Hacc]. exists s.
    split; [apply list_elem_of_In, Hin | exact Hacc].
  - intros (s & Hin & Hacc).
    assert (Hmem : s ∈ (list_to_set (List.filter (accepts sc) servers) : gset string)).
    { apply elem_of_list_to_set, list_elem_of_In, List.filter_In.
      split; [apply list_elem_of_In, Hin | exact Hacc]. }
    destruct (decide (size (list_to_set (List.filter (accepts sc) servers) : gset string) = 0))
      as [Hz|Hnz]; [|lia].
    apply size_empty_inv in Hz. set_solver.
Qed.

Lemma uploadsOf_size_le servers f sc :
  size (uploadsOf servers f sc) <= length (acceptingEndpoints servers sc).
Proof.
  rewrite <- size_dom, uploadsOf_dom.
  generalize (acceptingEndpoints servers sc). intros l.
  induction l as [|x l IH].
  - rewrite list_to_set_nil, size_empty. simpl. lia.
  - rewrite list_to_set_cons, size_union_alt, size_singleton. simpl.
    assert (size ((list_to_set l : gset string) ∖ {[x]}) <= size (list_to_set l : gset string))
      by (apply subseteq_size; set_solver).
    lia.
Qed.

(** What [taskSettle] does to the shared state, whatever the world does:
    it never throws, it counts the file once and records one entry. *)
Local Ltac tallied :=
  unfold push, incr_failed, incr_successful, failedEntry; simpl;
  rewrite ?Nat.add_0_r, ?Nat.add_1_r; reflexivity.

Local Ltac settled :=
  first [ solve [eexists _, [_]; tallied]
        | solve [eexists _, [_; _]; rewrite <- app_assoc; tallied] ].

Lemma taskSettle_spec servers f sc st :
  exists v cons,
    taskSettle servers f sc st
    = ({| results := tally (recorded servers f sc) (results st);
          activeUploads := delete (shortFileName f) (activeUploads st);
          console := console st ++ cons |}, inr v).
Proof.
  unfold taskSettle, tryFinally, tryCatch, tryBlock, catchBlock, finallyBlock,
    recorded, thrown, uploadsOf.
  destruct st as [res act con]. destruct res as [ok ko frs].
  unfold bind, raise_if, throw, ret, log, update_results, update_active, modify, tally.
  destruct (readFileSync sc) as [e|]; simpl; [settled|].
  destruct (JS.pop (JS.split_slash (localPath f))) as [n|]; simpl; [|settled].
  destruct (JS.string_truthy n); simpl; [|settled].
  destruct (multiServerUpload_rejects sc) as [e|]; simpl; [settled|].
  match goal with |- context [0 <? ?n] => destruct (0 <? n) eqn:Hpos end; simpl.
  - destruct (publishNSiteEvent sc) as [e|]; simpl; settled.
  - settled.
Qed.

End TaskFacts.

(** ** Facts about the limiter and the event loop *)

Module LoopFacts.
Import Upload Outcomes TaskFacts.

Section Run.
Variable blossomServers : list string.
Variable limit : nat.

Local Abbreviation recordedTask := (Outcomes.recordedTask blossomServers).
Local Abbreviation tallyAll := (Outcomes.tallyAll blossomServers).
Local Abbreviation fifo := (Outcomes.fifo limit).

Lemma tallyAll_fileResults order res :
  fileResults (tallyAll order res) = fileResults res ++ map recordedTask order.
Proof.
  revert res. induction order as [|t order IH]; intros res; simpl.
  - by rewrite app_nil_r.
  - unfold tallyAll in *. simpl. rewrite IH. simpl. by rewrite <- app_assoc.
Qed.

Lemma tallyAll_successful order res :
  successful (tallyAll order res)
  = successful res + length (List.filter success (map recordedTask order)).
Proof.
  revert res. induction order as [|t order IH]; intros res; simpl.
  - lia.
  - unfold tallyAll in *. simpl. rewrite IH. simpl.
    destruct (success (recordedTask t)); simpl; lia.
Qed.

Lemma tallyAll_failed order res :
  failed (tallyAll order res)
  = failed res
    + length (List.filter (fun r => negb (success r)) (map recordedTask order)).
Proof.
  revert res. induction order as [|t order IH]; intros res; simpl.
  - lia.
  - unfold tallyAll in *. simpl. rewrite IH. simpl.
    destruct (success (recordedTask t)); simpl; lia.
Qed.

Lemma taskStart_results f st : results (fst (taskStart f st)) = results st.
Proof. reflexivity. Qed.

Lemma startQueued_spec all queue running st passed reached :
  fifo all {| waiting := queue; inFlight := running; store := st |} ->
  startQueued limit queue running st = (passed, reached) ->
  Forall (fifo all) passed /\ fifo all reached /\
  results (store reached) = results st /\
  inFlight reached ++ waiting reached = running ++ queue /\
  (1 <= limit -> inFlight reached = [] -> waiting reached = []).
Proof.
  revert running st passed reached.
  induction queue as [|t rest IH]; intros running st passed reached Hinv Hstartq;
    cbn [startQueued] in Hstartq.
  - inversion Hstartq; subst; clear Hstartq. simpl.
    refine (conj _ (conj Hinv (conj _ (conj _ _)))); auto.
  - destruct (length running <? limit) eqn:Hlt.
    + destruct (startQueued limit rest (running ++ [t]) (fst (taskStart (task_file t) st)))
        as [passed' reached'] eqn:Hrec.
      inversion Hstartq; subst; clear Hstartq.
      apply Nat.ltb_lt in Hlt.
      assert (Hinv' : fifo all {| waiting := rest; inFlight := running ++ [t];
                                  store := fst (taskStart (task_file t) st) |}).
      { destruct Hinv as [_ (started & Hall & Hsub)]. simpl in *. split.
        - simpl. rewrite length_app. simpl. lia.
        - exists (started ++ [t]). simpl. split.
          + by rewrite <- app_assoc.
          + by apply sublist_app. }
      destruct (IH _ _ _ _ Hinv' Hrec) as (Hp & Hr & Hres & Happ & Hempty).
      refine (conj _ (conj Hr (conj Hres (conj _ Hempty)))).
      * constructor; done.
      * rewrite Happ, <- app_assoc. reflexivity.
    + inversion Hstartq; subst; clear Hstartq. simpl.
      refine (conj _ (conj Hinv (conj _ (conj _ _)))); auto.
      intros Hlim Hrun. subst running. simpl in Hlt.
      apply Nat.ltb_ge in Hlt. lia.
Qed.

Lemma fifo_settle all l k st' :
  fifo all l ->
  fifo all {| waiting := waiting l; inFlight := delete k (inFlight l); store := st' |}.
Proof.
  intros [Hlen (started & Hall & Hsub)]. split; simpl.
  - pose proof (sublist_length _ _ (sublist_delete (inFlight l) k)). lia.
  - exists started. split; [done|].
    etransitivity; [apply sublist_delete | done].
Qed.

(** With a limit of at least 1 and enough fuel for one completion per
    task, the loop settles: no task rejects, none is left over, and
    the shared [results] is the tally of all the tasks in the order
    they completed.  Every instant passed through satisfies [fifo]. *)
Lemma eventLoop_spec all fuel sched l :
  1 <= limit ->
  length (waiting l) + length (inFlight l) <= fuel ->
  fifo all l ->
  exists later st' order,
    eventLoop blossomServers limit fuel sched l = (later, Settled st') /\
    order ≡ₚ inFlight l ++ waiting l /\
    results st' = tallyAll order (results (store l)) /\
    Forall (fifo all) later.
Proof.
  intros Hlim. revert sched l.
  induction fuel as [|fuel IH]; intros sched l Hfuel Hinv.
  - destruct l as [q r st]. simpl in *.
    assert (q = []) by (destruct q; simpl in *; [done|lia]).
    assert (r = []) by (destruct r; simpl in *; [done|lia]).
    subst. simpl. exists [], st, []. repeat split; auto.
  - destruct l as [q r st]. simpl in Hfuel. cbn [eventLoop waiting inFlight store].
    destruct (startQueued limit q r st) as [passed l1] eqn:Hstartq.
    destruct (startQueued_spec all q r st passed l1 Hinv Hstartq)
      as (Hp & Hr & Hres & Happ & Hempty).
    destruct (inFlight l1) as [|t0 run'] eqn:Hrun.
    + rewrite (Hempty Hlim eq_refl).
      exists passed, (store l1), [].
      refine (conj eq_refl (conj _ (conj _ Hp))).
      * rewrite <- Happ, (Hempty Hlim eq_refl). reflexivity.
      * simpl. exact Hres.
    + set (k := hd 0 sched mod length (t0 :: run')).
      assert (Hk : k < length (t0 :: run'))
        by (apply Nat.mod_upper_bound; simpl; lia).
      destruct (lookup_lt_is_Some_2 (t0 :: run') k Hk) as [t Ht].
      rewrite (nth_lookup_Some _ _ t0 _ Ht).
      destruct (taskSettle_spec blossomServers (task_file t) (task_world t) (store l1))
        as (v & cons & Hsettle).
      rewrite Hsettle.
      set (st' := {| results := tally (recorded blossomServers (task_file t) (task_world t))
                                  (results (store l1));
                     activeUploads := delete (shortFileName (task_file t))
                                        (activeUploads (store l1));
                     console := console (store l1) ++ cons |}).
      set (l2 := {| waiting := waiting l1; inFlight := delete k (t0 :: run'); store := st' |}).
      assert (Hperm : t0 :: run' ≡ₚ t :: delete k (t0 :: run'))
        by (apply delete_Permutation, Ht).
      assert (Hlen2 : length (waiting l2) + length (inFlight l2) <= fuel).
      { simpl. apply Permutation_length in Hperm. simpl in Hperm.
        assert (Hsum : length ((t0 :: run') ++ waiting l1) = length (r ++ q))
          by (by rewrite Happ).
        rewrite !length_app in Hsum. simpl in Hsum.
        unfold delete in *. lia. }
      assert (Hinv2 : fifo all l2).
      { pose proof (fifo_settle all l1 k st' Hr) as Hf. by rewrite Hrun in Hf. }
      destruct (IH (tl sched) l2 Hlen2 Hinv2) as (later & st2 & order & Hrun2 & Hord & Htal & Hlater).
      rewrite Hrun2.
      exists (passed ++ l2 :: later), st2, (t :: order). repeat split.
      * apply (Permutation_app_tail (waiting l1)) in Hperm.
        rewrite <- Happ, Hord. symmetry. exact Hperm.
      * rewrite Htal. simpl. unfold tallyAll. simpl. rewrite <- Hres. reflexivity.
      * apply Forall_app. split; [done|]. constructor; done.
Qed.

End Run.

End LoopFacts.

(** ** Facts about [processUploads] *)

Module BatchFacts.
Import Upload Outcomes TaskFacts LoopFacts.

Lemma pLimit_inr c limit : pLimit c = inr limit -> 1 <= limit.
Proof.
  destruct c as [|z]; simpl; [discriminate|].
  destruct (0 <? z)%Z eqn:Hz; [|discriminate].
  intros [= <-]. apply Z.ltb_lt in Hz. lia.
Qed.

Lemma pLimit_accepts options :
  limiterAccepts options ->
  exists limit, pLimit (concurrency_or_default options) = inr limit /\ 1 <= limit.
Proof.
  intros Hacc. unfold concurrency_or_default, limiterAccepts in *.
  destruct (concurrency options) as [[|z]|] eqn:Hc; simpl.
  - exists 5. split; [reflexivity | lia].
  - destruct (z =? 0)%Z eqn:Hz0; simpl.
    + exists 5. split; [reflexivity | lia].
    + specialize (Hacc z eq_refl). apply Z.eqb_neq in Hz0.
      destruct (0 <? z)%Z eqn:Hz; [|apply Z.ltb_ge in Hz; lia].
      exists (Z.to_nat z). split; [reflexivity | apply Z.ltb_lt in Hz; lia].
  - exists 5. split; [reflexivity | lia].
Qed.

Lemma tasks_of_length files world : length (tasks_of files world) = length files.
Proof. unfold tasks_of. apply length_imap. Qed.

Lemma tasks_of_files files world : map task_file (tasks_of files world) = files.
Proof.
  unfold tasks_of. apply list_eq. intros i.
  rewrite list_lookup_fmap, list_lookup_imap.
  destruct (files !! i); reflexivity.
Qed.

(** The call returns the tally of its tasks in some completion order,
    and every instant it passes through satisfies [fifo]. *)
Lemma processUploads_spec pubkey files servers world options sched limit :
  pubkey_truthy pubkey = true ->
  files <> [] ->
  pLimit (concurrency_or_default options) = inr limit ->
  exists order,
    order ≡ₚ tasks_of files world /\
    completion (processUploads pubkey files servers world options sched)
    = Returns (tallyAll servers order emptyResults) /\
    Forall (fifo limit (tasks_of files world))
      (instants (processUploads pubkey files servers world options sched)).
Proof.
  intros Hpk Hne Hlim. unfold processUploads. rewrite Hpk, Hlim. simpl.
  destruct (length files =? 0) eqn:Hlen.
  { apply Nat.eqb_eq in Hlen. destruct files; [done | discriminate]. }
  set (l0 := {| waiting := tasks_of files world; inFlight := [];
                store := {| results := emptyResults; activeUploads := ∅;
                            console := [UploadingHeader (length files)
                                          (concurrency_or_default options);
                                        UploadingFiles] |} |}).
  assert (Hfifo : fifo limit (tasks_of files world) l0).
  { split; simpl; [lia|]. exists []. split; [reflexivity | constructor]. }
  destruct (eventLoop_spec servers limit (tasks_of files world) (length files) sched l0
              (pLimit_inr _ _ Hlim)) as (later & st' & order & Hrun & Hord & Htal & Hlater).
  { simpl. rewrite tasks_of_length. lia. }
  { exact Hfifo. }
  rewrite Hrun. exists order. simpl in Hord. rewrite app_nil_r in Hord || idtac.
  split; [exact Hord|]. split.
  - simpl. rewrite Htal. reflexivity.
  - simpl. constructor; assumption.
Qed.

Lemma tally_order_fileResults servers order tasks :
  order ≡ₚ tasks ->
  fileResults (tallyAll servers order emptyResults) ≡ₚ map (recordedTask servers) tasks.
Proof. intros Hp. rewrite tallyAll_fileResults. simpl. by rewrite Hp. Qed.

Lemma filter_length_perm {A} (p : A -> bool) (l1 l2 : list A) :
  l1 ≡ₚ l2 -> length (List.filter p l1) = length (List.filter p l2).
Proof.
  induction 1; simpl; try congruence.
  - destruct (p x); simpl; congruence.
  - destruct (p x), (p y); reflexivity.
Qed.

Lemma tally_order_successful servers order tasks :
  order ≡ₚ tasks ->
  successful (tallyAll servers order emptyResults)
  = length (List.filter success (map (recordedTask servers) tasks)).
Proof.
  intros Hp. rewrite tallyAll_successful. simpl.
  apply filter_length_perm. by rewrite Hp.
Qed.

Lemma tally_order_failed servers order tasks :
  order ≡ₚ tasks ->
  failed (tallyAll servers order emptyResults)
  = length (List.filter (fun r => negb (success r)) (map (recordedTask servers) tasks)).
Proof.
  intros Hp. rewrite tallyAll_failed. simpl.
  apply filter_length_perm. by rewrite Hp.
Qed.

Lemma filter_partition_length {A} (p : A -> bool) (l : list A) :
  length (List.filter p l) + length (List.filter (fun x => negb (p x)) l) = length l.
Proof. induction l as [|x l IH]; simpl; [done|]. destruct (p x); simpl; lia. Qed.

Lemma recorded_file servers f sc : file (recorded servers f sc) = remotePath f.
Proof. unfold recorded. destruct (thrown servers f sc); reflexivity. Qed.

Lemma recorded_totalServers servers f sc :
  totalServers (recorded servers f sc) = length servers.
Proof. unfold recorded. destruct (thrown servers f sc); reflexivity. Qed.

Lemma recorded_success servers f sc :
  success (recorded servers f sc) = (0 <? uploadedServers (recorded servers f sc)).
Proof. unfold recorded. destruct (thrown servers f sc); reflexivity. Qed.

End BatchFacts.

Import Upload Outcomes TaskFacts LoopFacts BatchFacts Examples.

(** ** The claims about [processUploads] *)

(** C1, counterexample: one file, one endpoint that stores the blob, and a
    publish call that throws.  The call returns a tally that counts the
    file as failed, and the file's entry has [success = false] and no
    uploaded server. *)
Lemma publish_failure_counts_as_failed :
  acceptingEndpoints ["https://one.example"] (publishFails allGood)
  = ["https://one.example"] /\
  completion (processUploads (Some "pubkey") [indexHtml] ["https://one.example"]
                (fun _ => publishFails allGood) defaults [])
  = Returns {| successful := 0; failed := 1;
               fileResults := [{| file := "/index.html"; success := false;
                                  uploadedServers := 0; totalServers := 1 |}] |}.
Proof. split; vm_compute; reflexivity. Qed.

(** C1, amended: when at least one endpoint stored the file and the
    publish call then throws [e], the error is caught inside the file's
    task: the task resolves to the caught error, the aggregate counts the
    file as failed, its entry is the failed entry with no uploaded
    server, and the two lines printed are those of any other per-file
    error.  The state and the value are the ones a failed read with the
    same error would leave. *)
Theorem publish_failure_recorded_as_failed servers f sc st n e :
  readFileSync sc = None ->
  JS.pop (JS.split_slash (localPath f)) = Some n ->
  JS.string_truthy n = true ->
  multiServerUpload_rejects sc = None ->
  (exists s, s ∈ servers /\ accepts sc s = true) ->
  publishNSiteEvent sc = Some e ->
  taskSettle servers f sc st
  = ({| results := push (failedEntry servers f) (incr_failed (results st));
        activeUploads := delete (shortFileName f) (activeUploads st);
        console := console st ++ [ErrorUploading (localPath f) e;
                                  StatusError (shortFileName f) e] |},
     inr (Caught (remotePath f) e)) /\
  taskSettle servers f sc st
  = taskSettle servers f
      {| readFileSync := Some e; accepts := accepts sc;
         multiServerUpload_rejects := None; publishNSiteEvent := None |} st.
Proof.
  intros Hread Hpop Hname Hrej Hacc Hpub.
  apply (uploadsOf_size_pos servers f sc) in Hacc. apply Nat.ltb_lt in Hacc.
  unfold uploadsOf in Hacc.
  unfold taskSettle, tryFinally, tryCatch, tryBlock, catchBlock, finallyBlock.
  unfold bind, raise_if, throw, ret, log, update_results, update_active, modify.
  simpl. rewrite Hread, Hpop, Hname, Hrej. simpl. rewrite Hacc, Hpub. simpl.
  rewrite <- app_assoc. split; reflexivity.
Qed.

Lemma publish_failure_recorded_as_failed_witness :
  exists st', taskSettle ["https://one.example"] indexHtml (publishFails allGood)
                {| results := emptyResults; activeUploads := ∅; console := [] |}
              = (st', inr (Caught "/index.html" (External "publish failed"))).
Proof.
  eexists.
  refine (proj1 (publish_failure_recorded_as_failed ["https://one.example"] indexHtml
            (publishFails allGood) _ "index.html" (External "publish failed")
            eq_refl eq_refl eq_refl eq_refl _ eq_refl)).
  exists "https://one.example". split; [apply list_elem_of_here | reflexivity].
Defined.

(** C2, counterexample: on the empty list the call prints its message
    and returns nothing; there is no tally. *)
Lemma empty_list_returns_nothing :
  completion (processUploads (Some "pubkey") [] threeServers (fun _ => allGood) defaults [])
  = ReturnsUndefined /\
  ~ exists r, completion (processUploads (Some "pubkey") [] threeServers
                            (fun _ => allGood) defaults []) = Returns r.
Proof. split; [reflexivity | intros [r Hr]; discriminate Hr]. Qed.

(** C2, amended: with an active user and a concurrency the limiter
    accepts, the call on a non-empty list returns the aggregate, whatever
    the outside world does to each file and in whatever order the tasks
    complete: it neither throws nor stays pending, and the aggregate
    counts every file.  On the empty list it returns nothing. *)
Theorem processUploads_returns_tally pubkey files servers world options sched :
  pubkey_truthy pubkey = true ->
  limiterAccepts options ->
  (files <> [] ->
   exists r, completion (processUploads pubkey files servers world options sched) = Returns r /\
             successful r + failed r = length files /\
             length (fileResults r) = length files) /\
  (files = [] ->
   processUploads pubkey files servers world options sched
   = {| completion := ReturnsUndefined; printed := [NoFilesToUpload]; instants := [] |}).
Proof.
  intros Hpk Hacc. split.
  - intros Hne. destruct (pLimit_accepts options Hacc) as (limit & Hlim & _).
    destruct (processUploads_spec pubkey files servers world options sched limit Hpk Hne Hlim)
      as (order & Hord & Hret & _).
    eexists. split; [exact Hret|]. split.
    + rewrite (tally_order_successful _ _ _ Hord), (tally_order_failed _ _ _ Hord).
      rewrite filter_partition_length, length_map. apply tasks_of_length.
    + rewrite tallyAll_fileResults. simpl. rewrite length_map.
      rewrite (Permutation_length Hord). apply tasks_of_length.
  - intros ->. unfold processUploads. rewrite Hpk. reflexivity.
Qed.

Lemma processUploads_returns_tally_witness :
  exists r, completion (processUploads (Some "pubkey") [indexHtml; aboutHtml] threeServers
                          (fun i => match i with 0 => unreadable | _ => noEndpoint end)
                          defaults [1]) = Returns r /\
            successful r + failed r = 2 /\ length (fileResults r) = 2.
Proof.
  refine (proj1 (processUploads_returns_tally (Some "pubkey") [indexHtml; aboutHtml]
                   threeServers _ defaults [1] eq_refl _) _).
  - intros z Hz. discriminate Hz.
  - discriminate.
Defined.

(** C3, counterexample: three endpoints of which exactly one stores the
    blob, and a publish call that throws.  One endpoint accepted the
    upload, yet the recorded entry has [success = false] and
    [uploadedServers = 0]. *)
Lemma one_of_three_accepts_publish_fails :
  acceptingEndpoints threeServers (publishFails (onlyEndpoint "https://two.example"))
  = ["https://two.example"] /\
  completion (processUploads (Some "pubkey") [indexHtml] threeServers
                (fun _ => publishFails (onlyEndpoint "https://two.example")) defaults [])
  = Returns {| successful := 0; failed := 1;
               fileResults := [{| file := "/index.html"; success := false;
                                  uploadedServers := 0; totalServers := 3 |}] |}.
Proof. split; vm_compute; reflexivity. Qed.

(** C3, amended: the entry [r] a task records always satisfies
    [success r = true] iff [uploadedServers r >= 1].  When nothing in
    the task throws (the read, the upload call and the publish call), the
    recorded count is the number of endpoints that stored the blob, so
    [success r = true] iff at least one endpoint accepted; in particular
    with 3 distinct endpoints of which exactly 1 accepts, [r] has
    [success = true] and [uploadedServers = 1].  When the publish call
    throws after an endpoint accepted, [r] has [success = false] and
    [uploadedServers = 0]. *)
Theorem success_iff_uploaded servers f sc st :
  exists r st' v,
    taskSettle servers f sc st = (st', inr v) /\
    fileResults (results st') = fileResults (results st) ++ [r] /\
    (success r = true <-> 1 <= uploadedServers r) /\
    (forall n,
        readFileSync sc = None ->
        JS.pop (JS.split_slash (localPath f)) = Some n ->
        JS.string_truthy n = true ->
        multiServerUpload_rejects sc = None ->
        publishNSiteEvent sc = None ->
        (success r = true <-> exists s, s ∈ servers /\ accepts sc s = true) /\
        (NoDup servers -> uploadedServers r = length (acceptingEndpoints servers sc)) /\
        (NoDup servers -> length servers = 3 ->
         length (acceptingEndpoints servers sc) = 1 ->
         r = {| file := remotePath f; success := true;
                uploadedServers := 1; totalServers := 3 |})) /\
    (forall n e,
        readFileSync sc = None ->
        JS.pop (JS.split_slash (localPath f)) = Some n ->
        JS.string_truthy n = true ->
        multiServerUpload_rejects sc = None ->
        (exists s, s ∈ servers /\ accepts sc s = true) ->
        publishNSiteEvent sc = Some e ->
        r = {| file := remotePath f; success := false;
               uploadedServers := 0; totalServers := length servers |}).
Proof.
  destruct (taskSettle_spec servers f sc st) as (v & cons & Hsettle).
  exists (recorded servers f sc). eexists. exists v.
  split; [exact Hsettle|]. split; [reflexivity|]. split; [|split].
  - rewrite recorded_success. rewrite Nat.ltb_lt. lia.
  - intros n Hread Hpop Hname Hrej Hpub.
    assert (Hthrown : thrown servers f sc = None).
    { unfold thrown. rewrite Hread, Hpop, Hname, Hrej, Hpub.
      destruct (0 <? size (uploadsOf servers f sc)); reflexivity. }
    unfold recorded. rewrite Hthrown. simpl. split; [|split].
    + rewrite Nat.ltb_lt. apply uploadsOf_size_pos.
    + intros Hnd. apply uploadsOf_size_NoDup, Hnd.
    + intros Hnd Hthree Hone.
      rewrite (uploadsOf_size_NoDup _ _ _ Hnd), Hone, Hthree. reflexivity.
  - intros n e Hread Hpop Hname Hrej Hacc Hpub.
    apply (uploadsOf_size_pos servers f sc) in Hacc. apply Nat.ltb_lt in Hacc.
    unfold recorded, thrown. rewrite Hread, Hpop, Hname, Hrej, Hacc, Hpub. reflexivity.
Qed.

Lemma success_iff_uploaded_witness :
  exists st' v,
    taskSettle threeServers indexHtml (onlyEndpoint "https://two.example")
      {| results := emptyResults; activeUploads := ∅; console := [] |} = (st', inr v) /\
    fileResults (results st')
    = [{| file := "/index.html"; success := true; uploadedServers := 1; totalServers := 3 |}].
Proof.
  destruct (success_iff_uploaded threeServers indexHtml (onlyEndpoint "https://two.example")
              {| results := emptyResults; activeUploads := ∅; console := [] |})
    as (r & st' & v & Hsettle & Hres & _ & Hfine & _).
  exists st', v. split; [exact Hsettle|]. rewrite Hres.
  destruct (Hfine "index.html" eq_refl eq_refl eq_refl eq_refl eq_refl) as (_ & _ & Hthree).
  rewrite Hthree; [reflexivity | | reflexivity | reflexivity].
  apply (bool_decide_unpack _). vm_compute. exact I.
Defined.

(** C4: no error of a file escapes its task.  Whatever the world does,
    the task of a file resolves (it never rejects) and changes the shared
    aggregate only by counting its own entry, an entry that depends on
    that file and its own endpoints alone; a file whose read throws, or
    that no endpoint accepts, gets the failed entry.  The batch therefore
    returns in every case, with one entry per file, each the entry the
    file's own task produces. *)
Theorem per_file_failures_are_isolated pubkey files servers world options sched :
  pubkey_truthy pubkey = true ->
  files <> [] ->
  limiterAccepts options ->
  (forall f sc st, exists st' v,
      uploadTask servers f sc st = (st', inr v) /\
      results st' = tally (recorded servers f sc) (results st)) /\
  (forall f sc,
      readFileSync sc <> None \/ (forall s, s ∈ servers -> accepts sc s = false) ->
      recorded servers f sc = failedEntry servers f) /\
  exists r,
    completion (processUploads pubkey files servers world options sched) = Returns r /\
    fileResults r ≡ₚ imap (fun i f => recorded servers f (world i)) files /\
    successful r
    = length (List.filter success (imap (fun i f => recorded servers f (world i)) files)) /\
    failed r
    = length (List.filter (fun e => negb (success e))
                (imap (fun i f => recorded servers f (world i)) files)).
Proof.
  intros Hpk Hne Hacc.
  assert (Hmap : forall fs w, map (recordedTask servers) (tasks_of fs w)
                 = imap (fun i f => recorded servers f (w i)) fs).
  { intros fs w. unfold tasks_of. apply list_eq. intros i.
    rewrite list_lookup_fmap, !list_lookup_imap.
    destruct (fs !! i); reflexivity. }
  split; [|split].
  - intros f sc st. unfold uploadTask, bind.
    destruct (taskStart f st) as [st1 [e|[]]] eqn:Hstart;
      [unfold taskStart, bind, update_active, log, modify in Hstart; simpl in Hstart;
       discriminate Hstart|].
    destruct (taskSettle_spec servers f sc st1) as (v & cons & Hsettle).
    rewrite Hsettle. eexists _, v. split; [reflexivity|]. simpl.
    unfold taskStart, bind, update_active, log, modify in Hstart. simpl in Hstart.
    injection Hstart as <-. reflexivity.
  - intros f sc Hfail. unfold recorded, thrown.
    destruct Hfail as [Hread | Hnone].
    + destruct (readFileSync sc); [reflexivity | done].
    + assert (Hzero : size (uploadsOf servers f sc) = 0).
      { destruct (decide (size (uploadsOf servers f sc) = 0)) as [|Hnz]; [done|].
        assert (Hpos : 0 < size (uploadsOf servers f sc)) by lia.
        apply uploadsOf_size_pos in Hpos as (s & Hin & Hs).
        rewrite (Hnone s Hin) in Hs. discriminate Hs. }
      rewrite Hzero. simpl.
      destruct (readFileSync sc); [reflexivity|].
      destruct (JS.pop (JS.split_slash (localPath f))) as [n|]; [|reflexivity].
      destruct (JS.string_truthy n); [|reflexivity].
      destruct (multiServerUpload_rejects sc); reflexivity.
  - destruct (pLimit_accepts options Hacc) as (limit & Hlim & _).
    destruct (processUploads_spec pubkey files servers world options sched limit Hpk Hne Hlim)
      as (order & Hord & Hret & _).
    eexists. split; [exact Hret|]. rewrite <- Hmap. split; [|split].
    + apply tally_order_fileResults, Hord.
    + apply tally_order_successful, Hord.
    + apply tally_order_failed, Hord.
Qed.

Lemma per_file_failures_are_isolated_witness :
  exists r,
    completion (processUploads (Some "pubkey") [indexHtml; aboutHtml] ["https://one.example"]
                  (fun i => match i with 0 => noEndpoint | _ => allGood end)
                  defaults [1; 0]) = Returns r /\
    successful r = 1 /\ failed r = 1.
Proof.
  destruct (per_file_failures_are_isolated (Some "pubkey") [indexHtml; aboutHtml]
              ["https://one.example"]
              (fun i => match i with 0 => noEndpoint | _ => allGood end)
              defaults [1; 0] eq_refl)
    as (_ & _ & r & Hret & _ & Hok & Hko).
  - discriminate.
  - intros z Hz. discriminate Hz.
  - exists r. split; [exact Hret|]. rewrite Hok, Hko. split; vm_compute; reflexivity.
Defined.

(** C9: on a non-empty list the call returns an aggregate whose two
    counters add up to the number of input files, whose [fileResults] has
    exactly one entry per input file (the files' remote paths, in
    completion order), and in which every entry's [totalServers] is the
    number of configured endpoints. *)
Theorem tally_counts_every_file pubkey files servers world options sched :
  pubkey_truthy pubkey = true ->
  files <> [] ->
  limiterAccepts options ->
  exists r,
    completion (processUploads pubkey files servers world options sched) = Returns r /\
    successful r + failed r = length files /\
    length (fileResults r) = length files /\
    map file (fileResults r) ≡ₚ map remotePath files /\
    Forall (fun e => totalServers e = length servers) (fileResults r).
Proof.
  intros Hpk Hne Hacc.
  destruct (pLimit_accepts options Hacc) as (limit & Hlim & _).
  destruct (processUploads_spec pubkey files servers world options sched limit Hpk Hne Hlim)
    as (order & Hord & Hret & _).
  eexists. split; [exact Hret|].
  pose proof (tally_order_fileResults servers order _ Hord) as Hperm.
  split; [|split; [|split]].
  - rewrite (tally_order_successful _ _ _ Hord), (tally_order_failed _ _ _ Hord).
    rewrite filter_partition_length, length_map. apply tasks_of_length.
  - rewrite (Permutation_length Hperm), length_map. apply tasks_of_length.
  - rewrite Hperm.
    assert (Hfiles : map file (map (recordedTask servers) (tasks_of files world))
                     = map remotePath (map task_file (tasks_of files world))).
    { rewrite <- !list_fmap_compose. apply list_fmap_ext.
      intros i t _. simpl. apply recorded_file. }
    rewrite Hfiles, tasks_of_files. reflexivity.
  - rewrite Hperm. apply Forall_fmap, Forall_forall. intros t _. simpl.
    apply recorded_totalServers.
Qed.

Lemma tally_counts_every_file_witness :
  exists r,
    completion (processUploads (Some "pubkey") [indexHtml; aboutHtml] threeServers
                  (fun i => match i with 0 => unreadable | _ => allGood end)
                  {| concurrency := Some (JS.Num 1) |} []) = Returns r /\
    successful r + failed r = 2 /\
    length (fileResults r) = 2.
Proof.
  destruct (tally_counts_every_file (Some "pubkey") [indexHtml; aboutHtml] threeServers
              (fun i => match i with 0 => unreadable | _ => allGood end)
              {| concurrency := Some (JS.Num 1) |} [] eq_refl)
    as (r & Hret & Hsum & Hlen & _).
  - discriminate.
  - intros z [= <-]. lia.
  - exists r. split; [exact Hret|]. split; [exact Hsum | exact Hlen].
Defined.



(** C10: a concurrency option of [0] or [NaN] is falsy, so
    [options.concurrency || 5] is [5] and the limiter is created with 5
    slots.  From the command line: a [--concurrency] value that
    [parseInt] reads as [0] (such as "0") or as [NaN] (such as "abc")
    reaches [processUploads] as that number and runs with 5. *)
Theorem falsy_concurrency_uses_default options :
  concurrency options = Some (JS.Num 0) \/ concurrency options = Some JS.NaN ->
  concurrency_or_default options = JS.Num 5 /\
  pLimit (concurrency_or_default options) = inr 5 /\
  (forall s, JS.parseInt s = JS.Num 0 \/ JS.parseInt s = JS.NaN ->
             concurrency_or_default {| concurrency := Some (Cli.concurrencyOption (Some s)) |}
             = JS.Num 5) /\
  JS.parseInt "0" = JS.Num 0 /\
  JS.parseInt "abc" = JS.NaN.
Proof.
  intros Hfalsy.
  assert (Hdefault : concurrency_or_default options = JS.Num 5).
  { unfold concurrency_or_default. destruct Hfalsy as [-> | ->]; reflexivity. }
  split; [exact Hdefault|]. split; [rewrite Hdefault; reflexivity|].
  split; [|split; reflexivity].
  intros s Hs. unfold concurrency_or_default, Cli.concurrencyOption. simpl.
  destruct (JS.string_truthy s); [|reflexivity].
  destruct Hs as [-> | ->]; reflexivity.
Qed.

Lemma falsy_concurrency_uses_default_witness :
  concurrency_or_default {| concurrency := Some (JS.Num 0) |} = JS.Num 5 /\
  map (fun l => length (inFlight l))
    (instants (processUploads (Some "pubkey") (fiveFiles ++ [aboutHtml]) threeServers
                 (fun _ => allGood) {| concurrency := Some (JS.Num 0) |} []))
  = [0; 1; 2; 3; 4; 5; 4; 5; 4; 3; 2; 1; 0].
Proof.
  split; [|vm_compute; reflexivity].
  exact (proj1 (falsy_concurrency_uses_default {| concurrency := Some (JS.Num 0) |}
                  (or_introl eq_refl))).
Defined.

(** ** Facts about the purge loop *)

Module PurgeFacts.
Import Cli.

Section Purge.
Variable w : World.
Variable blossomServers : list string.

(** One endpoint: the attempt is made, a throw is caught and printed. *)
Lemma purgeServer_spec file auth s h :
  exists printed,
    purgeServer w file auth s h
    = (h ++ Console (DeletingBlob (sha256 file) s)
         :: DeleteBlob s (sha256 file) auth :: printed, inr tt) /\
    (printed = [] \/ printed = [Console (ErrorDeletingBlob (sha256 file) s)]).
Proof.
  unfold purgeServer, tryCatch, bind, print, perform, modify.
  destruct (deleteBlob w (h ++ [Console (DeletingBlob (sha256 file) s)]) s (sha256 file) auth)
    as [e|[]] eqn:Hdel.
  - exists [Console (ErrorDeletingBlob (sha256 file) s)]. split; [|right; reflexivity].
    rewrite <- !app_assoc. reflexivity.
  - exists []. split; [|left; reflexivity].
    rewrite <- !app_assoc. reflexivity.
Qed.

(** All the endpoints are attempted, in order, with the same
    authorization, whatever each attempt does. *)
Lemma purgeServers_spec file auth servers h :
  exists seg,
    forEach servers (purgeServer w file auth) h = (h ++ seg, inr tt) /\
    deletions seg = map (fun s => (s, sha256 file, auth)) servers /\
    signings seg = [] /\
    retractions seg = [].
Proof.
  revert h. induction servers as [|s servers IH]; intros h.
  - exists []. simpl. unfold ret. rewrite app_nil_r. auto.
  - destruct (purgeServer_spec file auth s h) as (printed & Hstep & Hprinted).
    destruct (IH (h ++ Console (DeletingBlob (sha256 file) s)
                    :: DeleteBlob s (sha256 file) auth :: printed))
      as (seg & Hrest & Hdel & Hsig & Hret).
    exists (Console (DeletingBlob (sha256 file) s)
              :: DeleteBlob s (sha256 file) auth :: printed ++ seg).
    split; [|split; [|split]].
    + cbn [forEach]. unfold bind at 1. rewrite Hstep, Hrest.
      rewrite <- app_assoc. reflexivity.
    + unfold deletions in *. cbn [omap list_omap]. rewrite omap_app, Hdel.
      destruct Hprinted as [-> | ->]; reflexivity.
    + unfold signings in *. cbn [omap list_omap]. rewrite omap_app, Hsig.
      destruct Hprinted as [-> | ->]; reflexivity.
    + unfold retractions in *. cbn [omap list_omap]. rewrite omap_app, Hret.
      destruct Hprinted as [-> | ->]; reflexivity.
Qed.

(** The retraction is attempted once; a throw is caught and printed. *)
Lemma purgeEvent_spec ev h :
  exists after,
    purgeEvent w ev h
    = (h ++ [Console (DeletingEvent (id ev)); EventDelete ev; Console after], inr tt) /\
    match eventDelete w (h ++ [Console (DeletingEvent (id ev))]) ev with
    | inl _ => after = ErrorDeletingEvent (id ev)
    | inr d => after = PublishedDeletionEvent (id d)
    end.
Proof.
  unfold purgeEvent, tryCatch, bind, print, perform, modify.
  destruct (eventDelete w (h ++ [Console (DeletingEvent (id ev))]) ev) as [e|d].
  - exists (ErrorDeletingEvent (id ev)). split; [|reflexivity].
    rewrite <- !app_assoc. reflexivity.
  - exists (PublishedDeletionEvent (id d)). split; [|reflexivity].
    rewrite <- !app_assoc. reflexivity.
Qed.

Lemma forEach_step {A} (body : A -> M (list Action) unit) x rest h h' :
  body x h = (h', inr tt) ->
  forEach (x :: rest) body h = forEach rest body h'.
Proof. intros Hx. cbn [forEach]. unfold bind. rewrite Hx. reflexivity. Qed.

(** The body of the loop for a file with an event, once the
    authorization is there. *)
Lemma purgeFile_spec file ev auth h :
  event file = Some ev ->
  createDeleteAuth w h (sha256 file) = inr auth ->
  exists dels after,
    purgeFile w blossomServers file h
    = (h ++ CreateDeleteAuth (sha256 file) :: dels
         ++ [Console (DeletingEvent (id ev)); EventDelete ev; Console after], inr tt) /\
    deletions dels = map (fun s => (s, sha256 file, auth)) blossomServers /\
    signings dels = [] /\
    retractions dels = [] /\
    match eventDelete w (h ++ CreateDeleteAuth (sha256 file) :: dels
                           ++ [Console (DeletingEvent (id ev))]) ev with
    | inl _ => after = ErrorDeletingEvent (id ev)
    | inr d => after = PublishedDeletionEvent (id d)
    end.
Proof.
  intros Hev Hauth.
  destruct (purgeServers_spec file auth blossomServers
              (h ++ [CreateDeleteAuth (sha256 file)]))
    as (dels & Hservers & Hdel & Hsig & Hret).
  destruct (purgeEvent_spec ev ((h ++ [CreateDeleteAuth (sha256 file)]) ++ dels))
    as (after & Hevent & Hafter).
  exists dels, after.
  assert (Hshape : forall tail : list Action,
             ((h ++ [CreateDeleteAuth (sha256 file)]) ++ dels) ++ tail
             = h ++ CreateDeleteAuth (sha256 file) :: dels ++ tail).
  { intros tail. rewrite <- !app_assoc. reflexivity. }
  split; [|split; [exact Hdel | split; [exact Hsig | split; [exact Hret|]]]].
  - unfold purgeFile. rewrite Hev. unfold bind at 1. unfold perform at 1.
    rewrite Hauth. unfold bind. rewrite Hservers, Hevent, Hshape. reflexivity.
  - rewrite Hshape in Hafter. exact Hafter.
Qed.

Lemma purge_skips_eventless (purgeOption : bool) toDelete h :
  purge w blossomServers purgeOption toDelete h
  = purge w blossomServers purgeOption
      (List.filter (fun f => match event f with Some _ => true | None => false end)
         toDelete) h.
Proof.
  unfold purge. destruct purgeOption; [|reflexivity].
  revert h. induction toDelete as [|f rest IH]; intros h; [reflexivity|].
  cbn [List.filter]. destruct (event f) as [ev|] eqn:Hev.
  - cbn [forEach]. unfold bind.
    destruct (purgeFile w blossomServers f h) as [h' [e|[]]]; [reflexivity | apply IH].
  - rewrite <- IH. apply forEach_step. unfold purgeFile. rewrite Hev. reflexivity.
Qed.

End Purge.

End PurgeFacts.

Import Cli PurgeFacts.

(** ** The claims about the purge loop *)



(** C7: for a file with a source record the first thing the loop does is
    to ask for one delete authorization; it asks no second time for that
    file, and every endpoint deletion of the file, one per configured
    endpoint, carries the authorization that one call returned.  When the
    call throws, no deletion of the file is attempted. *)
Theorem one_delete_auth_per_file w servers file ev h :
  event file = Some ev ->
  exists seg,
    fst (purgeFile w servers file h) = h ++ CreateDeleteAuth (sha256 file) :: seg /\
    signings (CreateDeleteAuth (sha256 file) :: seg) = [sha256 file] /\
    match createDeleteAuth w h (sha256 file) with
    | inr auth => deletions seg = map (fun s => (s, sha256 file, auth)) servers
    | inl e => seg = [] /\ snd (purgeFile w servers file h) = inl e
    end.
Proof.
  intros Hev.
  destruct (createDeleteAuth w h (sha256 file)) as [e|auth] eqn:Hauth.
  - exists []. unfold purgeFile. rewrite Hev. unfold bind, perform. rewrite Hauth.
    simpl. auto.
  - destruct (purgeFile_spec w servers file ev auth h Hev Hauth)
      as (dels & after & Hfile & Hdel & Hsig & _).
    exists (dels ++ [Console (DeletingEvent (id ev)); EventDelete ev; Console after]).
    rewrite Hfile. split; [reflexivity|]. split.
    + unfold signings in *. cbn [omap list_omap]. rewrite omap_app, Hsig. reflexivity.
    + unfold deletions in *. rewrite omap_app, Hdel. simpl. apply app_nil_r.
Qed.

Lemma one_delete_auth_per_file_witness :
  signings (fst (purgeFile flakyWorld twoServers oldHtml [])) = ["c3"] /\
  deletions (fst (purgeFile flakyWorld twoServers oldHtml []))
  = [("https://one.example", "c3", "auth-c3"); ("https://two.example", "c3", "auth-c3")].
Proof.
  destruct (one_delete_auth_per_file flakyWorld twoServers oldHtml
              {| id := "event-c3" |} [] eq_refl)
    as (seg & Hfile & Hsig & Hdel).
  rewrite Hfile. cbn [app]. split; [exact Hsig|].
  cbn in Hdel. unfold deletions in *. cbn [omap list_omap]. exact Hdel.
Defined.

(** C8: a file without a source record is skipped entirely: the body of
    the loop does nothing for it (no authorization, no endpoint deletion,
    no retraction, no output), and the loop over a purge set is the loop
    over its files that have a source record. *)
Theorem files_without_event_are_skipped w servers file h :
  event file = None ->
  purgeFile w servers file h = (h, inr tt) /\
  (forall rest, purge w servers true (file :: rest) h = purge w servers true rest h) /\
  (forall toDelete,
      purge w servers true toDelete h
      = purge w servers true
          (List.filter (fun f => match event f with Some _ => true | None => false end)
             toDelete) h).
Proof.
  intros Hev.
  assert (Hfile : purgeFile w servers file h = (h, inr tt))
    by (unfold purgeFile; rewrite Hev; reflexivity).
  split; [exact Hfile|]. split.
  - intros rest. unfold purge. apply forEach_step, Hfile.
  - intros toDelete. apply purge_skips_eventless.
Qed.

Lemma files_without_event_are_skipped_witness :
  purgeFile flakyWorld twoServers strayHtml [] = ([], inr tt) /\
  purge flakyWorld twoServers true [strayHtml; oldHtml] []
  = purge flakyWorld twoServers true [oldHtml] [].
Proof.
  destruct (files_without_event_are_skipped flakyWorld twoServers strayHtml [] eq_refl)
    as (Hfile & Hrest & _).
  split; [exact Hfile | exact (Hrest [oldHtml])].
Defined.

(** ** Two remarks on the command *)

(** The authorization call of line 199 is outside both inner [try]
    blocks: when it throws, the loop is left, nothing is deleted or
    retracted for that file or any later one, and the command exits
    with code 1 through the [catch] of line 231. *)
Example signing_failure_leaves_the_loop :
  purgeAndExit noSigner twoServers true [oldHtml; oldHtml] []
  = ([CreateDeleteAuth "c3";
      Console (FailedToFetchOnlineFiles (External "no signer"))], inr 1).
Proof. vm_compute. reflexivity. Qed.

(** The command calls [processUploads] only on a non-empty list, with
    the [--concurrency] value read by [parseInt]. *)
Lemma runUploads_call pubkey toTransfer servers world s sched :
  JS.string_truthy s = true ->
  runUploads pubkey toTransfer servers world (Some s) sched
  = if 0 <? length toTransfer
    then Some (processUploads pubkey toTransfer servers world
                 {| concurrency := Some (JS.parseInt s) |} sched)
    else None.
Proof.
  intros Hs. unfold runUploads, concurrencyOption. rewrite Hs. reflexivity.
Qed.

(** ** Further facts about the upload run *)

Module RunFacts.
Import Upload Outcomes Observations TaskFacts LoopFacts BatchFacts.

(** [taskSettle], in full. *)
Lemma taskSettle_exact servers f sc st :
  taskSettle servers f sc st
  = ({| results := tally (recorded servers f sc) (results st);
        activeUploads := delete (shortFileName f) (activeUploads st);
        console := console st ++ linesOf servers f sc |},
     inr (returnOf servers f sc)).
Proof.
  unfold taskSettle, tryFinally, tryCatch, tryBlock, catchBlock, finallyBlock,
    returnOf, linesOf, recorded, thrown, failCountOf, uploadsOf.
  destruct st as [res act con]. destruct res as [ok ko frs].
  unfold bind, raise_if, throw, ret, log, update_results, update_active, modify, tally,
    push, incr_failed, incr_successful, failedEntry.
  destruct (readFileSync sc) as [e|]; simpl;
    [rewrite <- app_assoc, ?Nat.add_0_r, ?Nat.add_1_r; reflexivity|].
  destruct (JS.pop (JS.split_slash (localPath f))) as [n|]; simpl;
    [|rewrite <- app_assoc, ?Nat.add_0_r, ?Nat.add_1_r; reflexivity].
  destruct (JS.string_truthy n); simpl;
    [|rewrite <- app_assoc, ?Nat.add_0_r, ?Nat.add_1_r; reflexivity].
  destruct (multiServerUpload_rejects sc) as [e|]; simpl;
    [rewrite <- app_assoc, ?Nat.add_0_r, ?Nat.add_1_r; reflexivity|].
  match goal with |- context [0 <? ?n] => destruct (0 <? n) eqn:Hpos end; simpl.
  - destruct (publishNSiteEvent sc) as [e|]; simpl;
      rewrite <- ?app_assoc, ?Nat.add_0_r, ?Nat.add_1_r; reflexivity.
  - rewrite ?Nat.add_0_r, ?Nat.add_1_r. reflexivity.
Qed.

Section Invariant.
Variable blossomServers : list string.
Variable limit : nat.
Variable I : Loop -> Prop.

Hypothesis I_start : forall q r st t,
  I {| waiting := t :: q; inFlight := r; store := st |} ->
  length r < limit ->
  I {| waiting := q; inFlight := r ++ [t]; store := fst (taskStart (task_file t) st) |}.

Hypothesis I_settle : forall q r st k t,
  I {| waiting := q; inFlight := r; store := st |} ->
  r !! k = Some t ->
  I {| waiting := q; inFlight := delete k r;
       store := fst (taskSettle blossomServers (task_file t) (task_world t) st) |}.

Lemma startQueued_invariant queue running st passed reached :
  I {| waiting := queue; inFlight := running; store := st |} ->
  startQueued limit queue running st = (passed, reached) ->
  Forall I passed /\ I reached.
Proof.
  revert running st passed reached.
  induction queue as [|t rest IH]; intros running st passed reached HI Hrun;
    cbn [startQueued] in Hrun.
  - inversion Hrun; subst. split; [constructor | exact HI].
  - destruct (length running <? limit) eqn:Hlt.
    + destruct (startQueued limit rest (running ++ [t]) (fst (taskStart (task_file t) st)))
        as [passed' reached'] eqn:Hrec.
      inversion Hrun; subst; clear Hrun. apply Nat.ltb_lt in Hlt.
      pose proof (I_start _ _ _ _ HI Hlt) as HI'.
      destruct (IH _ _ _ _ HI' Hrec) as [Hp Hr].
      split; [constructor; assumption | exact Hr].
    + inversion Hrun; subst. split; [constructor | exact HI].
Qed.

(** An invariant of the two steps holds at every instant of the loop and
    of the state the loop settles in. *)
Lemma eventLoop_invariant fuel sched l :
  I l ->
  Forall I (fst (eventLoop blossomServers limit fuel sched l)) /\
  forall st, snd (eventLoop blossomServers limit fuel sched l) = Settled st ->
             I {| waiting := []; inFlight := []; store := st |}.
Proof.
  revert sched l. induction fuel as [|fuel IH]; intros sched l HI;
    destruct l as [q r st]; cbn [eventLoop waiting inFlight store].
  - destruct (startQueued limit q r st) as [passed l1] eqn:Hrun.
    destruct (startQueued_invariant _ _ _ _ _ HI Hrun) as [Hp Hr].
    destruct l1 as [q1 r1 st1]. cbn [waiting inFlight store].
    destruct r1 as [|t0 r1]; cbn [fst snd].
    + split; [exact Hp|]. intros st' Hs. destruct q1; [|discriminate Hs].
      injection Hs as <-. exact Hr.
    + split; [exact Hp | discriminate].
  - destruct (startQueued limit q r st) as [passed l1] eqn:Hrun.
    destruct (startQueued_invariant _ _ _ _ _ HI Hrun) as [Hp Hr].
    destruct l1 as [q1 r1 st1]. cbn [waiting inFlight store].
    destruct r1 as [|t0 r1]; cbn [fst snd].
    + split; [exact Hp|]. intros st' Hs. destruct q1; [|discriminate Hs].
      injection Hs as <-. exact Hr.
    + set (k := hd 0 sched mod length (t0 :: r1)).
      assert (Hk : k < length (t0 :: r1)) by (apply Nat.mod_upper_bound; simpl; lia).
      destruct (lookup_lt_is_Some_2 (t0 :: r1) k Hk) as [t Ht].
      rewrite (nth_lookup_Some _ _ t0 _ Ht).
      pose proof (I_settle _ _ _ _ _ Hr Ht) as HI2.
      rewrite taskSettle_exact in *. cbn [fst] in HI2.
      match goal with
      | |- context [eventLoop _ _ fuel (tail sched) ?l2] =>
          destruct (IH (tail sched) l2 HI2) as [Hlater Hfinal];
          destruct (eventLoop blossomServers limit fuel (tail sched) l2) as [later res]
      end.
      cbn [fst snd] in *. split.
      * apply Forall_app. split; [exact Hp|]. constructor; assumption.
      * exact Hfinal.
Qed.

End Invariant.

(** The run behind a call that returns. *)
Lemma processUploads_run pubkey files servers world options sched limit :
  pubkey_truthy pubkey = true ->
  files <> [] ->
  pLimit (concurrency_or_default options) = inr limit ->
  exists later st,
    eventLoop servers limit (length files) sched (initialLoop files world options)
    = (later, Settled st) /\
    processUploads pubkey files servers world options sched
    = {| completion := Returns (results st);
         printed := console st ++ [Summary (length files) (successful (results st))
                                     (failed (results st))];
         instants := initialLoop files world options :: later |}.
Proof.
  intros Hpk Hne Hlim. unfold processUploads. rewrite Hpk, Hlim. simpl.
  destruct (length files =? 0) eqn:Hlen.
  { apply Nat.eqb_eq in Hlen. destruct files; [done | discriminate]. }
  fold (initialLoop files world options).
  destruct (eventLoop_spec servers limit (tasks_of files world) (length files) sched
              (initialLoop files world options) (pLimit_inr _ _ Hlim))
    as (later & st' & order & Hrun & _).
  { simpl. rewrite tasks_of_length. lia. }
  { split; simpl; [lia|]. exists []. split; [reflexivity | constructor]. }
  rewrite Hrun. exists later, st'. split; reflexivity.
Qed.

(** How a call can end, by its arguments. *)
Lemma processUploads_cases pubkey files servers world options sched :
  match completion (processUploads pubkey files servers world options sched) with
  | Throws e =>
      (pubkey_truthy pubkey = false /\ e = PubkeyNotFound) \/
      (pubkey_truthy pubkey = true /\ files <> [] /\
       exists z, concurrency options = Some (JS.Num z) /\ (z < 0)%Z /\
                 exists msg, e = TypeError msg)
  | ReturnsUndefined => pubkey_truthy pubkey = true /\ files = []
  | Returns r =>
      pubkey_truthy pubkey = true /\ files <> [] /\
      exists limit, pLimit (concurrency_or_default options) = inr limit
  | NeverSettles => False
  end.
Proof.
  destruct (pubkey_truthy pubkey) eqn:Hpk.
  2:{ unfold processUploads. rewrite Hpk. simpl. left. auto. }
  destruct files as [|f0 fs] eqn:Hfiles.
  { unfold processUploads. rewrite Hpk. simpl. auto. }
  rewrite <- Hfiles. assert (Hne : files <> []) by (rewrite Hfiles; discriminate).
  destruct (pLimit (concurrency_or_default options)) as [e|limit] eqn:Hlim.
  - assert (Hthrows : completion (processUploads pubkey files servers world options sched)
                      = Throws e).
    { unfold processUploads. rewrite Hpk, Hlim. simpl.
      destruct (length files =? 0) eqn:Hlen; [|reflexivity].
      apply Nat.eqb_eq in Hlen. destruct files; [done | discriminate]. }
    rewrite Hthrows. right. split; [reflexivity|]. split; [exact Hne|].
    unfold concurrency_or_default in Hlim.
    destruct (concurrency options) as [[|z]|]; simpl in Hlim; try discriminate.
    destruct (z =? 0)%Z eqn:Hz0; simpl in Hlim; [discriminate|].
    destruct (0 <? z)%Z eqn:Hz; [discriminate|].
    apply Z.ltb_ge in Hz. apply Z.eqb_neq in Hz0.
    exists z. split; [reflexivity|]. split; [lia|]. injection Hlim as <-. eauto.
  - destruct (processUploads_run pubkey files servers world options sched limit Hpk Hne Hlim)
      as (later & st & _ & Hout).
    rewrite Hout. simpl. eauto.
Qed.

(** With one slot the tasks complete in call order. *)
Lemma eventLoop_sequential servers fuel sched q r st :
  length r <= 1 ->
  length q + length r <= fuel ->
  exists later st',
    eventLoop servers 1 fuel sched {| waiting := q; inFlight := r; store := st |}
    = (later, Settled st') /\
    results st' = tallyAll servers (r ++ q) (results st).
Proof.
  revert sched q r st. induction fuel as [|fuel IH]; intros sched q r st Hone Hfuel.
  - assert (q = []) by (destruct q; simpl in *; [done|lia]).
    assert (r = []) by (destruct r; simpl in *; [done|lia]).
    subst. simpl. eauto.
  - cbn [eventLoop waiting inFlight store].
    destruct (startQueued 1 q r st) as [passed l1] eqn:Hrun.
    assert (Hfifo : fifo 1 (r ++ q) {| waiting := q; inFlight := r; store := st |}).
    { split; [exact Hone|]. exists r. split; reflexivity. }
    destruct (startQueued_spec 1 (r ++ q) q r st passed l1 Hfifo Hrun)
      as (_ & [Hlen _] & Hres & Happ & Hempty).
    destruct l1 as [q1 r1 st1]. cbn [waiting inFlight store] in *.
    destruct r1 as [|t0 r1].
    + rewrite (Hempty ltac:(lia) eq_refl) in *. simpl in Happ. rewrite <- Happ.
      exists passed, st1. split; [reflexivity|]. simpl. exact Hres.
    + destruct r1 as [|t1 r1]; [|simpl in Hlen; lia].
      replace (hd 0 sched mod length [t0]) with 0
        by (simpl; symmetry; apply (Nat.mod_1_r (hd 0 sched))).
      cbn [nth]. rewrite taskSettle_exact.
      change (delete 0 [t0]) with (@nil Task).
      match goal with
      | |- context [eventLoop _ _ fuel (tail sched) {| waiting := _; inFlight := _; store := ?s |}] =>
          destruct (IH (tail sched) q1 [] s) as (later & st' & Hloop & Htal)
      end.
      * simpl. lia.
      * assert (Hsum : length ([t0] ++ q1) = length (r ++ q)) by (by rewrite Happ).
        rewrite !length_app in Hsum. simpl in *. lia.
      * rewrite Hloop. eexists _, st'. split; [reflexivity|].
        rewrite Htal, <- Happ. simpl. unfold tallyAll. simpl. rewrite Hres. reflexivity.
Qed.

Lemma announced_app c1 c2 : announced (c1 ++ c2) = announced c1 ++ announced c2.
Proof. unfold announced. apply omap_app. Qed.

Lemma linesOf_announced servers f sc : announced (linesOf servers f sc) = [].
Proof.
  unfold linesOf. destruct (thrown servers f sc); [reflexivity|].
  destruct (0 <? size (uploadsOf servers f sc)); reflexivity.
Qed.

Lemma linesOf_uploaded servers f sc :
  length (List.filter isUploadedLine (linesOf servers f sc))
  = if success (recorded servers f sc) then 1 else 0.
Proof.
  unfold linesOf, recorded. destruct (thrown servers f sc); [reflexivity|]. simpl.
  destruct (0 <? size (uploadsOf servers f sc)); reflexivity.
Qed.

Lemma linesOf_failure servers f sc :
  length (List.filter isFailureLine (linesOf servers f sc))
  = if success (recorded servers f sc) then 0 else 1.
Proof.
  unfold linesOf, recorded. destruct (thrown servers f sc); [reflexivity|]. simpl.
  destruct (0 <? size (uploadsOf servers f sc)); reflexivity.
Qed.

Lemma size_list_to_set_le (l : list string) :
  size (list_to_set l : gset string) <= length l.
Proof.
  induction l as [|x l IH].
  - rewrite list_to_set_nil, size_empty. simpl. lia.
  - rewrite list_to_set_cons, size_union_alt, size_singleton. simpl.
    assert (size ((list_to_set l : gset string) ∖ {[x]}) <= size (list_to_set l : gset string))
      by (apply subseteq_size; set_solver).
    lia.
Qed.

(** The map [activeUploads] holds names of tasks in flight only. *)
Lemma active_names_invariant servers limit fuel sched l :
  dom (activeUploads (store l)) ⊆ namesInFlight l ->
  Forall (fun l' => dom (activeUploads (store l')) ⊆ namesInFlight l')
    (fst (eventLoop servers limit fuel sched l)).
Proof.
  intros Hl.
  apply (eventLoop_invariant servers limit
           (fun l' => dom (activeUploads (store l')) ⊆ namesInFlight l')); [| |exact Hl].
  - intros q r st t HI _. unfold namesInFlight in *. simpl in *.
    rewrite dom_insert, map_app, list_to_set_app. simpl. set_solver.
  - intros q r st k t HI Hk. rewrite taskSettle_exact.
    unfold namesInFlight in *. simpl in *. rewrite dom_delete.
    intros x Hx. apply elem_of_difference in Hx as [Hdom Hne].
    apply HI in Hdom. apply elem_of_list_to_set, list_elem_of_fmap in Hdom
      as (t' & Hname & Hin).
    apply elem_of_list_to_set, list_elem_of_fmap. exists t'. split; [exact Hname|].
    rewrite (delete_Permutation r k t Hk) in Hin.
    apply elem_of_cons in Hin as [-> | Hin]; [|exact Hin].
    exfalso. apply Hne. rewrite Hname. apply elem_of_singleton. reflexivity.
Qed.

(** The start lines printed so far and the queue make up the call order. *)
Lemma announced_invariant servers limit (all : list Task) fuel sched l :
  announced (console (store l)) ++ map taskName (waiting l) = map taskName all ->
  forall st, snd (eventLoop servers limit fuel sched l) = Settled st ->
             announced (console st) = map taskName all.
Proof.
  intros Hl st Hst.
  unshelve epose proof (eventLoop_invariant servers limit
                (fun l' => announced (console (store l')) ++ map taskName (waiting l')
                           = map taskName all) _ _ fuel sched l Hl) as [_ Hfinal].
  - intros q r st0 t HI _. simpl in *. rewrite announced_app. simpl.
    rewrite <- app_assoc. exact HI.
  - intros q r st0 k t HI _. rewrite taskSettle_exact. simpl in *.
    rewrite announced_app, linesOf_announced, app_nil_r. exact HI.
  - specialize (Hfinal st Hst). simpl in Hfinal. rewrite app_nil_r in Hfinal. exact Hfinal.
Qed.

(** One "✓" line per file counted successful, one "✗" line per file
    counted failed. *)
Lemma outcome_lines_invariant servers limit fuel sched l :
  length (List.filter isUploadedLine (console (store l))) = successful (results (store l)) ->
  length (List.filter isFailureLine (console (store l))) = failed (results (store l)) ->
  forall st, snd (eventLoop servers limit fuel sched l) = Settled st ->
             length (List.filter isUploadedLine (console st)) = successful (results st) /\
             length (List.filter isFailureLine (console st)) = failed (results st).
Proof.
  intros Hok Hko st Hst.
  unshelve epose proof (eventLoop_invariant servers limit
                (fun l' => length (List.filter isUploadedLine (console (store l')))
                           = successful (results (store l')) /\
                           length (List.filter isFailureLine (console (store l')))
                           = failed (results (store l'))) _ _ fuel sched l (conj Hok Hko))
    as [_ Hfinal].
  - intros q r st0 t [H1 H2] _. simpl in *.
    rewrite !List.filter_app, !length_app. simpl. lia.
  - intros q r st0 k t [H1 H2] _. rewrite taskSettle_exact. simpl in *.
    rewrite !List.filter_app, !length_app, linesOf_uploaded, linesOf_failure. lia.
  - exact (Hfinal st Hst).
Qed.

(** A call that does not return a tally started no task. *)
Lemma processUploads_ends_nothing_started pubkey files servers world options sched :
  (forall r, completion (processUploads pubkey files servers world options sched)
             <> Returns r) ->
  instants (processUploads pubkey files servers world options sched) = [].
Proof.
  intros Hnot. unfold processUploads in *.
  destruct (pubkey_truthy pubkey) eqn:Hpk; simpl in *; [|reflexivity].
  destruct (length files =? 0) eqn:Hlen; [reflexivity|].
  destruct (pLimit (concurrency_or_default options)) as [e|limit] eqn:Hlim; [reflexivity|].
  exfalso.
  assert (Hne : files <> []) by (intros ->; discriminate Hlen).
  destruct (processUploads_run pubkey files servers world options sched limit Hpk Hne Hlim)
    as (later & st & _ & Hout).
  unfold processUploads in Hout. rewrite Hpk, Hlim, Hlen in Hout. simpl in Hout.
  apply (Hnot (results st)). rewrite Hout. reflexivity.
Qed.

Lemma multiServerUpload_fold reply servers blob p0 (m0 : gmap string string) :
  let out := foldl (fun acc server =>
                      if reply server : bool
                      then (onUpload server (fst acc), <[server := blob]> (snd acc))
                      else (onError server (fst acc), snd acc))
                   (p0, m0) servers in
  successCount (fst out) = successCount p0 + length (List.filter reply servers) /\
  failCount (fst out)
  = failCount p0 + length (List.filter (fun s => negb (reply s)) servers) /\
  (forall s, serverStatus (fst out) !! s
             = if bool_decide (s ∈ servers)
               then Some (if reply s then StSuccess else StError)
               else serverStatus p0 !! s) /\
  (forall s, snd out !! s
             = if bool_decide (s ∈ servers) && reply s then Some blob else m0 !! s).
Proof.
  revert p0 m0. induction servers as [|x servers IH]; intros p0 m0; cbn zeta.
  - cbn [foldl fst snd List.filter length]. split; [lia|]. split; [lia|].
    split; intros s; rewrite bool_decide_eq_false_2; set_solver.
  - cbn [foldl]. destruct (reply x) eqn:Hx.
    + destruct (IH (onUpload x p0) (<[x := blob]> m0)) as (Hs & Hf & Hst & Hup).
      cbn [fst snd] in *. rewrite Hs, Hf. simpl. rewrite Hx. simpl.
      split; [lia|]. split; [lia|].
      split; intros s; [rewrite Hst | rewrite Hup]; simpl;
        (destruct (decide (s = x)) as [->|Hne];
         [rewrite ?lookup_insert_eq, ?Hx | rewrite ?lookup_insert_ne by done]);
        repeat case_bool_decide; simpl; rewrite ?Hx; try destruct (reply s);
        simpl; try done; set_solver.
    + destruct (IH (onError x p0) m0) as (Hs & Hf & Hst & Hup).
      cbn [fst snd] in *. rewrite Hs, Hf. simpl. rewrite Hx. simpl.
      split; [lia|]. split; [lia|].
      split; intros s; [rewrite Hst | rewrite Hup]; simpl;
        (destruct (decide (s = x)) as [->|Hne];
         [rewrite ?lookup_insert_eq, ?Hx | rewrite ?lookup_insert_ne by done]);
        repeat case_bool_decide; simpl; rewrite ?Hx; try destruct (reply s);
        simpl; try done; set_solver.
Qed.

Lemma pendingProgress_lookup servers s :
  serverStatus (pendingProgress servers) !! s
  = if bool_decide (s ∈ servers) then Some StPending else None.
Proof.
  unfold pendingProgress. simpl.
  assert (Hgen : forall (m0 : gmap string ServerStatus),
             foldl (fun m server => <[server := StPending]> m) m0 servers !! s
             = if bool_decide (s ∈ servers) then Some StPending else m0 !! s).
  { induction servers as [|x servers IH]; intros m0; cbn [foldl].
    - rewrite bool_decide_eq_false_2; set_solver.
    - rewrite IH. destruct (decide (s ∈ servers)) as [Hin|Hin].
      + rewrite !bool_decide_eq_true_2; set_solver.
      + rewrite (bool_decide_eq_false_2 _ Hin).
        destruct (decide (s = x)) as [->|Hne].
        * rewrite lookup_insert_eq, bool_decide_eq_true_2; set_solver.
        * rewrite lookup_insert_ne by done. rewrite bool_decide_eq_false_2; set_solver. }
  rewrite Hgen. destruct (bool_decide (s ∈ servers)); [reflexivity | apply lookup_empty].
Qed.

Lemma split_slash_slashFree s : slashFree s = true -> JS.split_slash s = [s].
Proof.
  induction s as [|c s IH]; simpl; [reflexivity|].
  destruct (Ascii.eqb c "/"%char); simpl; [discriminate|].
  intros Hs. rewrite (IH Hs). reflexivity.
Qed.

Lemma split_slash_nonempty s : JS.split_slash s <> [].
Proof.
  destruct s as [|c s]; simpl; [discriminate|].
  destruct (Ascii.eqb c "/"%char); [discriminate|].
  destruct (JS.split_slash s); discriminate.
Qed.

Lemma pop_split_slash_last dir name :
  slashFree name = true ->
  2 <= length (JS.split_slash (dir +:+ "/" +:+ name)) /\
  JS.pop (JS.split_slash (dir +:+ "/" +:+ name)) = Some name.
Proof.
  intros Hname. unfold JS.pop. induction dir as [|c dir [IHlen IHlast]].
  - change (JS.split_slash ("" +:+ "/" +:+ name)) with ("" :: JS.split_slash name).
    rewrite (split_slash_slashFree name Hname). simpl. split; [lia | reflexivity].
  - change (String c dir +:+ "/" +:+ name) with (String c (dir +:+ "/" +:+ name)).
    cbn [JS.split_slash].
    destruct (Ascii.eqb c "/"%char).
    + split; [simpl; lia|].
      rewrite last_cons, IHlast. reflexivity.
    + destruct (JS.split_slash (dir +:+ "/" +:+ name)) as [|seg [|seg' segs]];
        simpl in IHlen; try lia.
      split; [simpl; lia|].
      rewrite last_cons. rewrite last_cons in IHlast.
      destruct (last (seg' :: segs)) eqn:Hl; [exact IHlast|].
      apply last_None in Hl. discriminate Hl.
Qed.

End RunFacts.

Import Observations RunFacts.

(** ** Further properties of [processUploads] *)

(** X1: how a call ends is decided by three checks in this order.  It
    throws "User Pubkey not found." when the active user has no pubkey,
    also on the empty list; otherwise it returns nothing on the empty
    list; otherwise it throws the limiter's [TypeError] when the
    concurrency option is negative; otherwise it returns the tally.  It
    never stays pending, and in the first three cases no task was
    started. *)
Theorem processUploads_ends_by_its_arguments pubkey files servers world options sched :
  match completion (processUploads pubkey files servers world options sched) with
  | Throws e =>
      ((pubkey_truthy pubkey = false /\ e = PubkeyNotFound) \/
       (pubkey_truthy pubkey = true /\ files <> [] /\
        exists z, concurrency options = Some (JS.Num z) /\ (z < 0)%Z /\
                  exists msg, e = TypeError msg)) /\
      instants (processUploads pubkey files servers world options sched) = []
  | ReturnsUndefined =>
      pubkey_truthy pubkey = true /\ files = [] /\
      instants (processUploads pubkey files servers world options sched) = []
  | Returns r =>
      pubkey_truthy pubkey = true /\ files <> [] /\ limiterAccepts options /\
      length (fileResults r) = length files
  | NeverSettles => False
  end.
Proof.
  pose proof (processUploads_cases pubkey files servers world options sched) as Hcases.
  destruct (completion (processUploads pubkey files servers world options sched))
    as [e| |r|] eqn:Hend; [| | |exact Hcases].
  - split; [exact Hcases|].
    unfold processUploads in *. destruct (pubkey_truthy pubkey); simpl in *; [|reflexivity].
    destruct (length files =? 0); [discriminate Hend|].
    destruct (pLimit (concurrency_or_default options)) as [e'|limit] eqn:Hlim; [reflexivity|].
    exfalso. destruct Hcases as [[Hf _] | (_ & _ & z & Hz & Hneg & _)]; [discriminate|].
    unfold concurrency_or_default in Hlim. rewrite Hz in Hlim. simpl in Hlim.
    destruct (z =? 0)%Z eqn:Hz0; [apply Z.eqb_eq in Hz0; lia|]. simpl in Hlim.
    destruct (0 <? z)%Z eqn:Hz1; [apply Z.ltb_lt in Hz1; lia | discriminate].
  - destruct Hcases as [Hpk ->]. split; [exact Hpk|]. split; [reflexivity|].
    unfold processUploads. rewrite Hpk. reflexivity.
  - destruct Hcases as (Hpk & Hne & limit & Hlim).
    split; [exact Hpk|]. split; [exact Hne|]. split.
    + intros z Hz. unfold concurrency_or_default in Hlim. rewrite Hz in Hlim. simpl in Hlim.
      destruct (z =? 0)%Z eqn:Hz0; [apply Z.eqb_eq in Hz0; lia|]. simpl in Hlim.
      destruct (0 <? z)%Z eqn:Hz1; [apply Z.ltb_lt in Hz1; lia | discriminate].
    + destruct (processUploads_spec pubkey files servers world options sched limit
                  Hpk Hne Hlim) as (order & Hord & Hret & _).
      rewrite Hend in Hret. injection Hret as ->.
      rewrite tallyAll_fileResults. simpl.
      rewrite length_map, (Permutation_length Hord). apply tasks_of_length.
Qed.

(** X2: the tally does not depend on the order in which the uploads
    complete: two runs of the same call under any two schedules return
    the same two counters and the same entries, up to their order. *)
Theorem tally_independent_of_schedule pubkey files servers world options sched1 sched2 r1 r2 :
  completion (processUploads pubkey files servers world options sched1) = Returns r1 ->
  completion (processUploads pubkey files servers world options sched2) = Returns r2 ->
  successful r1 = successful r2 /\
  failed r1 = failed r2 /\
  fileResults r1 ≡ₚ fileResults r2.
Proof.
  intros H1 H2.
  pose proof (processUploads_cases pubkey files servers world options sched1) as Hcases.
  rewrite H1 in Hcases. destruct Hcases as (Hpk & Hne & limit & Hlim).
  destruct (processUploads_spec pubkey files servers world options sched1 limit Hpk Hne Hlim)
    as (o1 & Ho1 & Hr1 & _).
  destruct (processUploads_spec pubkey files servers world options sched2 limit Hpk Hne Hlim)
    as (o2 & Ho2 & Hr2 & _).
  rewrite H1 in Hr1. rewrite H2 in Hr2. injection Hr1 as ->. injection Hr2 as ->.
  split; [|split].
  - rewrite (tally_order_successful _ _ _ Ho1), (tally_order_successful _ _ _ Ho2).
    reflexivity.
  - rewrite (tally_order_failed _ _ _ Ho1), (tally_order_failed _ _ _ Ho2). reflexivity.
  - rewrite (tally_order_fileResults _ _ _ Ho1), (tally_order_fileResults _ _ _ Ho2).
    reflexivity.
Qed.

Lemma tally_independent_of_schedule_witness :
  exists r1 r2,
    completion (processUploads (Some "pubkey") [indexHtml; aboutHtml] threeServers
                  (fun i => match i with 0 => noEndpoint | _ => allGood end)
                  defaults [0; 0]) = Returns r1 /\
    completion (processUploads (Some "pubkey") [indexHtml; aboutHtml] threeServers
                  (fun i => match i with 0 => noEndpoint | _ => allGood end)
                  defaults [1; 0]) = Returns r2 /\
    map file (fileResults r1) = ["/index.html"; "/about.html"] /\
    map file (fileResults r2) = ["/about.html"; "/index.html"] /\
    successful r1 = successful r2 /\ failed r1 = failed r2.
Proof.
  eexists _, _.
  split; [vm_compute; reflexivity|]. split; [vm_compute; reflexivity|].
  split; [reflexivity|]. split; [reflexivity|].
  destruct (tally_independent_of_schedule (Some "pubkey") [indexHtml; aboutHtml] threeServers
              (fun i => match i with 0 => noEndpoint | _ => allGood end)
              defaults [0; 0] [1; 0] _ _
              ltac:(vm_compute; reflexivity) ltac:(vm_compute; reflexivity))
    as (Hok & Hko & _).
  split; [exact Hok | exact Hko].
Defined.

(** X3: with a concurrency of 1 the files are uploaded one after the
    other: whatever the schedule, the entries of [fileResults] are in the
    order of the input list, and never more than one task is in flight. *)
Theorem concurrency_one_keeps_order pubkey files servers world sched :
  pubkey_truthy pubkey = true ->
  files <> [] ->
  exists r,
    completion (processUploads pubkey files servers world
                  {| concurrency := Some (JS.Num 1) |} sched) = Returns r /\
    fileResults r = imap (fun i f => recorded servers f (world i)) files /\
    map file (fileResults r) = map remotePath files /\
    Forall (fun l => length (inFlight l) <= 1)
      (instants (processUploads pubkey files servers world
                   {| concurrency := Some (JS.Num 1) |} sched)).
Proof.
  intros Hpk Hne.
  destruct (processUploads_run pubkey files servers world {| concurrency := Some (JS.Num 1) |}
              sched 1 Hpk Hne eq_refl) as (later & st & Hloop & Hout).
  destruct (eventLoop_sequential servers (length files) sched (tasks_of files world) []
              (store (initialLoop files world {| concurrency := Some (JS.Num 1) |})))
    as (later' & st' & Hloop' & Htal).
  { simpl. lia. }
  { simpl. rewrite tasks_of_length. lia. }
  change {| waiting := tasks_of files world; inFlight := [];
            store := store (initialLoop files world {| concurrency := Some (JS.Num 1) |}) |}
    with (initialLoop files world {| concurrency := Some (JS.Num 1) |}) in Hloop'.
  rewrite Hloop in Hloop'. injection Hloop' as _ <-.
  assert (Hentries : fileResults (results st)
                     = imap (fun i f => recorded servers f (world i)) files).
  { rewrite Htal, tallyAll_fileResults. simpl. unfold tasks_of.
    apply list_eq. intros i. rewrite list_lookup_fmap, !list_lookup_imap.
    destruct (files !! i); reflexivity. }
  exists (results st). rewrite Hout. cbn [completion instants].
  split; [reflexivity|]. split; [exact Hentries|]. split.
  - rewrite Hentries. apply list_eq. intros i.
    rewrite !list_lookup_fmap, list_lookup_imap.
    destruct (files !! i); simpl; [|reflexivity]. f_equal. apply recorded_file.
  - destruct (processUploads_spec pubkey files servers world
                {| concurrency := Some (JS.Num 1) |} sched 1 Hpk Hne eq_refl)
      as (_ & _ & _ & Hfifo).
    rewrite Hout in Hfifo. cbn [instants] in Hfifo.
    eapply Forall_impl; [exact Hfifo|]. intros l [Hlen _]. exact Hlen.
Qed.

Lemma concurrency_one_keeps_order_witness :
  exists r,
    completion (processUploads (Some "pubkey") [indexHtml; aboutHtml] threeServers
                  (fun _ => allGood) {| concurrency := Some (JS.Num 1) |} [1; 1])
    = Returns r /\
    map file (fileResults r) = ["/index.html"; "/about.html"].
Proof.
  destruct (concurrency_one_keeps_order (Some "pubkey") [indexHtml; aboutHtml] threeServers
              (fun _ => allGood) [1; 1] eq_refl ltac:(discriminate))
    as (r & Hret & _ & Hfiles & _).
  exists r. split; [exact Hret | exact Hfiles].
Defined.

(** X4: the map [activeUploads] never holds a stale entry.  At every
    instant of a call its keys are names of files whose task is in
    flight, so it has at most as many entries as tasks in flight, and it
    is empty whenever no task is in flight, in particular once the last
    task has completed. *)
Theorem activeUploads_holds_tasks_in_flight pubkey files servers world options sched :
  Forall (fun l => dom (activeUploads (store l)) ⊆ namesInFlight l /\
                   size (activeUploads (store l)) <= length (inFlight l) /\
                   (inFlight l = [] -> activeUploads (store l) = ∅))
    (instants (processUploads pubkey files servers world options sched)).
Proof.
  assert (Hdom : Forall (fun l => dom (activeUploads (store l)) ⊆ namesInFlight l)
                   (instants (processUploads pubkey files servers world options sched))).
  { pose proof (processUploads_cases pubkey files servers world options sched) as Hcases.
    pose proof (processUploads_ends_nothing_started pubkey files servers world options sched)
      as Hnone.
    destruct (completion (processUploads pubkey files servers world options sched))
      as [e| |r|] eqn:Hend;
      [rewrite Hnone; [apply Forall_nil_2 | intros r; discriminate]
      |rewrite Hnone; [apply Forall_nil_2 | intros r; discriminate] | | done].
    destruct Hcases as (Hpk & Hne & limit & Hlim).
    destruct (processUploads_run pubkey files servers world options sched limit Hpk Hne Hlim)
      as (later & st & Hloop & Hout).
    rewrite Hout. cbn [instants]. constructor.
    - simpl. set_solver.
    - replace later with (fst (eventLoop servers limit (length files) sched
                                 (initialLoop files world options)))
        by (rewrite Hloop; reflexivity).
      apply active_names_invariant. simpl. set_solver. }
  eapply Forall_impl; [exact Hdom|]. intros l Hl.
  assert (Hsize : size (activeUploads (store l)) <= length (inFlight l)).
  { rewrite <- size_dom. etransitivity; [apply subseteq_size, Hl|].
    unfold namesInFlight. etransitivity; [apply size_list_to_set_le|].
    rewrite length_map. reflexivity. }
  split; [exact Hl|]. split; [exact Hsize|].
  intros Hnone. rewrite Hnone in Hsize. simpl in Hsize.
  apply map_size_empty_iff. lia.
Qed.

(** X5: the "→ Uploading" lines are printed in the order of the input
    list, one per file, whatever the order in which the uploads complete. *)
Theorem uploads_announced_in_call_order pubkey files servers world options sched :
  pubkey_truthy pubkey = true ->
  files <> [] ->
  limiterAccepts options ->
  announced (printed (processUploads pubkey files servers world options sched))
  = map shortFileName files.
Proof.
  intros Hpk Hne Hacc.
  destruct (pLimit_accepts options Hacc) as (limit & Hlim & _).
  destruct (processUploads_run pubkey files servers world options sched limit Hpk Hne Hlim)
    as (later & st & Hloop & Hout).
  rewrite Hout. cbn [printed]. rewrite announced_app. simpl. rewrite app_nil_r.
  rewrite (announced_invariant servers limit (tasks_of files world) (length files) sched
             (initialLoop files world options)).
  - rewrite <- (tasks_of_files files world) at 2. rewrite <- list_fmap_compose. reflexivity.
  - reflexivity.
  - rewrite Hloop. reflexivity.
Qed.

Lemma uploads_announced_in_call_order_witness :
  announced (printed (processUploads (Some "pubkey") [indexHtml; aboutHtml] threeServers
                        (fun _ => allGood) {| concurrency := Some (JS.Num 2) |} [1; 0]))
  = ["index.html"; "about.html"].
Proof.
  refine (uploads_announced_in_call_order (Some "pubkey") [indexHtml; aboutHtml] threeServers
            (fun _ => allGood) {| concurrency := Some (JS.Num 2) |} [1; 0] eq_refl _ _).
  - discriminate.
  - intros z [= <-]. lia.
Defined.

(** X6: what a returning call prints agrees with what it returns.  The
    last line is the summary, with the number of input files and the two
    returned counters; before it there is exactly one "✓ Uploaded" line
    per file counted successful and exactly one "✗ Failed" or "✗ Error"
    line per file counted failed. *)
Theorem printed_lines_match_tally pubkey files servers world options sched :
  pubkey_truthy pubkey = true ->
  files <> [] ->
  limiterAccepts options ->
  exists r body,
    completion (processUploads pubkey files servers world options sched) = Returns r /\
    printed (processUploads pubkey files servers world options sched)
    = body ++ [Summary (length files) (successful r) (failed r)] /\
    length (List.filter isUploadedLine body) = successful r /\
    length (List.filter isFailureLine body) = failed r /\
    successful r + failed r = length files.
Proof.
  intros Hpk Hne Hacc.
  destruct (pLimit_accepts options Hacc) as (limit & Hlim & _).
  destruct (processUploads_run pubkey files servers world options sched limit Hpk Hne Hlim)
    as (later & st & Hloop & Hout).
  destruct (outcome_lines_invariant servers limit (length files) sched
              (initialLoop files world options) eq_refl eq_refl st) as [Hok Hko].
  { rewrite Hloop. reflexivity. }
  exists (results st), (console st). rewrite Hout. cbn [completion printed].
  split; [reflexivity|]. split; [reflexivity|]. split; [exact Hok|]. split; [exact Hko|].
  destruct (processUploads_spec pubkey files servers world options sched limit Hpk Hne Hlim)
    as (order & Hord & Hret & _).
  rewrite Hout in Hret. cbn [completion] in Hret. injection Hret as ->.
  rewrite (tally_order_successful _ _ _ Hord), (tally_order_failed _ _ _ Hord).
  rewrite filter_partition_length, length_map. apply tasks_of_length.
Qed.

Lemma printed_lines_match_tally_witness :
  exists r body,
    printed (processUploads (Some "pubkey") [indexHtml; aboutHtml] threeServers
               (fun i => match i with 0 => unreadable | _ => allGood end) defaults [])
    = body ++ [Summary 2 (successful r) (failed r)] /\
    length (List.filter isUploadedLine body) = successful r /\
    length (List.filter isFailureLine body) = failed r.
Proof.
  destruct (printed_lines_match_tally (Some "pubkey") [indexHtml; aboutHtml] threeServers
              (fun i => match i with 0 => unreadable | _ => allGood end) defaults []
              eq_refl ltac:(discriminate) ltac:(intros z Hz; discriminate Hz))
    as (r & body & _ & Hprinted & Hok & Hko & _).
  exists r, body. split; [exact Hprinted|]. split; [exact Hok | exact Hko].
Defined.

(** X7: the per-file bookkeeping of the two callbacks accounts for every
    endpoint.  When [multiServerUpload] has resolved, [successCount] and
    [failCount] are the numbers of accepted and of refused attempts and
    add up to the number of endpoints; no endpoint is left "pending";
    an endpoint is in the returned map exactly when its status is
    "success"; and for distinct endpoints the number of uploaded servers
    and [failCount], the two numbers of the "✓ Uploaded" line, add up to
    the total. *)
Theorem upload_progress_accounts_for_every_server reply servers blob :
  let out := multiServerUpload reply servers blob (pendingProgress servers) in
  successCount (fst out) = length (List.filter reply servers) /\
  failCount (fst out) = length (List.filter (fun s => negb (reply s)) servers) /\
  successCount (fst out) + failCount (fst out) = length servers /\
  (forall s, serverStatus (fst out) !! s
             = if bool_decide (s ∈ servers)
               then Some (if reply s then StSuccess else StError)
               else None) /\
  (forall s, serverStatus (fst out) !! s <> Some StPending) /\
  (forall s, is_Some (snd out !! s) <-> serverStatus (fst out) !! s = Some StSuccess) /\
  size (snd out) <= successCount (fst out) /\
  (NoDup servers -> size (snd out) + failCount (fst out) = length servers).
Proof.
  cbn zeta. unfold multiServerUpload.
  destruct (multiServerUpload_fold reply servers blob (pendingProgress servers) ∅)
    as (Hs & Hf & Hst & Hup). cbn zeta in *.
  pose proof (multiServerUpload_dom reply servers blob (pendingProgress servers) ∅) as Hdom.
  set (out := foldl _ _ servers) in *.
  assert (Hstatus : forall s, serverStatus (fst out) !! s
                              = if bool_decide (s ∈ servers)
                                then Some (if reply s then StSuccess else StError)
                                else None).
  { intros s. rewrite Hst, pendingProgress_lookup.
    destruct (bool_decide (s ∈ servers)); reflexivity. }
  assert (Hsum : length (List.filter reply servers)
                 + length (List.filter (fun s => negb (reply s)) servers) = length servers)
    by apply filter_partition_length.
  simpl in Hs, Hf.
  split; [exact Hs|]. split; [exact Hf|]. split; [lia|]. split; [exact Hstatus|].
  split; [|split; [|split]].
  - intros s. rewrite Hstatus. destruct (bool_decide (s ∈ servers)); [|discriminate].
    destruct (reply s); discriminate.
  - intros s. rewrite Hstatus, Hup, lookup_empty.
    destruct (bool_decide (s ∈ servers)); simpl.
    + destruct (reply s); split; intros H; try done;
        try (by inversion H); try discriminate; eauto.
    + split; intros H; [by inversion H | discriminate].
  - rewrite Hs, <- size_dom, Hdom, dom_empty_L, union_empty_l_L.
    apply size_list_to_set_le.
  - intros Hnd. rewrite Hf, <- size_dom, Hdom, dom_empty_L, union_empty_l_L.
    rewrite size_list_to_set; [lia|].
    apply NoDup_ListNoDup, List.NoDup_filter, NoDup_ListNoDup, Hnd.
Qed.

(** X8: the name under which a file is reported is the part of its local
    path after the last "/": for a path [dir/name], or a bare [name],
    with a non-empty [name], both [shortFileName] and the [fileName] of
    line 75 are [name]. *)
Theorem shortFileName_is_last_segment f dir name :
  slashFree name = true ->
  name <> "" ->
  localPath f = dir +:+ "/" +:+ name \/ localPath f = name ->
  shortFileName f = name /\
  JS.pop (JS.split_slash (localPath f)) = Some name.
Proof.
  intros Hfree Hne Hpath.
  assert (Hpop : JS.pop (JS.split_slash (localPath f)) = Some name).
  { destruct Hpath as [-> | ->].
    - apply pop_split_slash_last, Hfree.
    - rewrite (split_slash_slashFree name Hfree). reflexivity. }
  split; [|exact Hpop].
  unfold shortFileName. rewrite Hpop. simpl.
  destruct name; [done | reflexivity].
Qed.

Lemma shortFileName_is_last_segment_witness :
  shortFileName indexHtml = "index.html".
Proof.
  refine (proj1 (shortFileName_is_last_segment indexHtml "site" "index.html"
                   eq_refl _ (or_introl eq_refl))).
  discriminate.
Defined.



(** ** Facts about the strings of the command line *)

Module TextFacts.
Import Text.

Lemma splitOn_freeOf sep s : freeOf sep s = true -> splitOn sep s = [s].
Proof.
  induction s as [|c s IH]; simpl; [reflexivity|].
  destruct (Ascii.eqb c sep); simpl; [discriminate|].
  intros Hs. rewrite (IH Hs). reflexivity.
Qed.

Lemma splitOn_app_sep sep x rest :
  freeOf sep x = true ->
  splitOn sep (x +:+ String sep rest) = x :: splitOn sep rest.
Proof.
  induction x as [|c x IH]; intros Hx.
  - change (EmptyString +:+ String sep rest) with (String sep rest).
    cbn [splitOn]. rewrite Ascii.eqb_refl. reflexivity.
  - change (String c x +:+ String sep rest) with (String c (x +:+ String sep rest)).
    cbn [splitOn]. simpl in Hx.
    destruct (Ascii.eqb c sep); simpl in Hx; [discriminate|].
    rewrite (IH Hx). reflexivity.
Qed.

(** [split] undoes [join] on items that do not hold the separator. *)
Lemma splitOn_joinWith sep items :
  items <> [] ->
  Forall (fun x => freeOf sep x = true) items ->
  splitOn sep (joinWith sep items) = items.
Proof.
  induction items as [|x items IH]; intros Hne Hfree; [done|].
  apply Forall_cons in Hfree as [Hx Hitems].
  destruct items as [|y items].
  - simpl. apply splitOn_freeOf, Hx.
  - change (joinWith sep (x :: y :: items))
      with (x +:+ String sep (joinWith sep (y :: items))).
    rewrite (splitOn_app_sep sep x _ Hx), IH; [reflexivity | discriminate | exact Hitems].
Qed.




Lemma stripTrailingSlashes_decompose s :
  exists k, s = stripTrailingSlashes s +:+ slashes k /\
            endsWithoutSlash (stripTrailingSlashes s) = true.
Proof.
  induction s as [|c s (k & Hs & Hend)].
  - exists 0. split; reflexivity.
  - cbn [stripTrailingSlashes].
    destruct (stripTrailingSlashes s) as [|c' kept] eqn:Hstrip.
    + change (EmptyString +:+ slashes k) with (slashes k) in Hs.
      destruct (Ascii.eqb c "/"%char) eqn:Hc.
      * apply Ascii.eqb_eq in Hc. subst c. exists (S k). rewrite Hs at 1.
        split; reflexivity.
      * exists k. split; [rewrite Hs at 1; reflexivity|]. simpl. rewrite Hc. reflexivity.
    + exists k. split; [rewrite Hs at 1; reflexivity|]. exact Hend.
Qed.

End TextFacts.

(** ** Facts about [initNdk] *)

Module NdkFacts.
Import Ndk.






Lemma prefix_npub_not_bunker key :
  String.prefix "npub1" key = true -> String.prefix "bunker://" key = false.
Proof.
  destruct key as [|c k]; [discriminate|].
  cbn [String.prefix]. destruct (ascii_dec "n" c) as [<-|]; [intros _; reflexivity|].
  discriminate.
Qed.

End NdkFacts.

Import Text TextFacts NdkFacts.

(** ** Properties of the command's setup *)


(** X11: how [initNdk] logs in depends on the key alone.  A key that
    starts with "bunker://" always throws "NIP46 not implemented" and
    the relays are never connected; a key that starts with "npub1" logs
    in without a signer; any other key installs a signer made from that
    key.  Whenever the call returns a user, the relays are connected. *)
Theorem initNdk_login w NOSTR_RELAYS privateKey relays before :
  exists ndk,
    fst (Ndk.initNdk w NOSTR_RELAYS privateKey relays before) = Some ndk /\
    (String.prefix "bunker://" privateKey = true ->
     snd (Ndk.initNdk w NOSTR_RELAYS privateKey relays before)
     = inl Ndk.nip46NotImplemented /\
     Ndk.connected ndk = false /\ Ndk.signer ndk = None) /\
    (forall user,
        snd (Ndk.initNdk w NOSTR_RELAYS privateKey relays before) = inr user ->
        Ndk.connected ndk = true /\
        (String.prefix "npub1" privateKey = true ->
         Ndk.signer ndk = None /\ Ndk.decode w privateKey = inr user) /\
        (String.prefix "npub1" privateKey = false ->
         Ndk.signer ndk = Some privateKey /\ Ndk.signerUser w privateKey = inr user)) /\
    (Ndk.connected ndk = true ->
     exists user, snd (Ndk.initNdk w NOSTR_RELAYS privateKey relays before) = inr user).
Proof.
  unfold Ndk.initNdk, bind, modify, throw, ret, Ndk.answer. simpl.
  destruct (String.prefix "npub1" privateKey) eqn:Hnpub.
  - assert (Hbunker : String.prefix "bunker://" privateKey = false).
    { apply prefix_npub_not_bunker, Hnpub. }
    rewrite Hbunker.
    destruct (Ndk.decode w privateKey) as [e|user] eqn:Hdec; simpl.
    + eexists. split; [reflexivity|]. simpl.
      split; [discriminate|]. split; [intros u Hu; discriminate Hu | discriminate].
    + destruct (Ndk.connect w _) as [e|[]] eqn:Hcon; simpl.
      * eexists. split; [reflexivity|]. simpl.
        split; [discriminate|]. split; [intros u Hu; discriminate Hu | discriminate].
      * eexists. split; [reflexivity|]. simpl. split; [discriminate|]. split.
        -- intros u [= <-]. split; [reflexivity|]. split; [auto | discriminate].
        -- eauto.
  - destruct (String.prefix "bunker://" privateKey) eqn:Hbunker; simpl.
    + eexists. split; [reflexivity|]. simpl.
      split; [auto|]. split; [intros u Hu; discriminate Hu | discriminate].
    + destruct (Ndk.signerUser w privateKey) as [e|user] eqn:Hsig; simpl.
      * eexists. split; [reflexivity|]. simpl.
        split; [discriminate|]. split; [intros u Hu; discriminate Hu | discriminate].
      * destruct (Ndk.connect w _) as [e|[]] eqn:Hcon; simpl.
        -- eexists. split; [reflexivity|]. simpl.
           split; [discriminate|]. split; [intros u Hu; discriminate Hu | discriminate].
        -- eexists. split; [reflexivity|]. simpl. split; [discriminate|]. split.
           ++ intros u [= <-]. split; [reflexivity|]. split; [discriminate | auto].
           ++ eauto.
Qed.

(** ** Facts about the download loop *)

Module DownloadFacts.
Import Download.

Section Fs.
Variable FS : Type.
Variable existsSync : FS -> string -> bool.
Variable join : string -> string -> string.
Variable dirname : string -> string.
Variable w : World FS.

Local Abbreviation tryServer := (Download.tryServer FS w).
Local Abbreviation tryServers := (Download.tryServers FS w).
Local Abbreviation downloadFile := (Download.downloadFile FS existsSync join dirname w).

(** One turn of the loop over the servers: one request, at most one
    write, and the "✓ Downloaded" line exactly when both worked. *)
Lemma tryServer_spec file filePath server st :
  exists disk tail ok,
    tryServer file filePath server st
    = ({| fs := disk; history := history FS st ++ DownloadBlob server (sha256 file) :: tail |},
       inr ok) /\
    requests tail = [] /\
    failedLines tail = [] /\
    downloadedLines tail = (if ok : bool then [(remotePath file, server)] else []) /\
    ((exists e, downloadBlob FS w (history FS st) server (sha256 file) = inl e) ->
     ok = false /\ disk = fs FS st).
Proof.
  unfold Download.tryServer, tryCatch, bind, fetchBlob, fsCall, act, modify, ret.
  destruct st as [disk h]. cbn [fs history].
  destruct (downloadBlob FS w h server (sha256 file)) as [e|[e|content]] eqn:Hdown.
  - eexists disk, [_], false. cbn [fs history]. rewrite <- app_assoc.
    split; [reflexivity|]. repeat split; reflexivity.
  - eexists disk, [_], false. cbn [fs history]. rewrite <- app_assoc.
    split; [reflexivity|]. split; [reflexivity|]. split; [reflexivity|].
    split; [reflexivity|]. intros [e' He']. discriminate He'.
  - cbn [fs history].
    destruct (writeFileSync FS w disk filePath content) as [disk' [e|]] eqn:Hwrite;
      cbn [fs history].
    + eexists disk', [_; _], false. rewrite <- !app_assoc.
      split; [reflexivity|]. split; [reflexivity|]. split; [reflexivity|].
      split; [reflexivity|]. intros [e' He']. discriminate He'.
    + eexists disk', [_; _], true. rewrite <- !app_assoc.
      split; [reflexivity|]. split; [reflexivity|]. split; [reflexivity|].
      split; [reflexivity|]. intros [e' He']. discriminate He'.
Qed.

(** The loop over the servers: the servers are asked in order up to the
    first one whose download and write both work. *)
Lemma tryServers_spec file filePath servers st :
  exists disk new ok tried rest,
    tryServers file filePath servers st
    = ({| fs := disk; history := history FS st ++ new |}, inr ok) /\
    servers = tried ++ rest /\
    requests new = map (fun s => (s, sha256 file)) tried /\
    failedLines new = [] /\
    (ok = true -> exists before s, tried = before ++ [s] /\
                                   downloadedLines new = [(remotePath file, s)]) /\
    (ok = false -> rest = [] /\ downloadedLines new = []) /\
    ((forall h s sha, exists e, downloadBlob FS w h s sha = inl e) ->
     ok = false /\ disk = fs FS st).
Proof.
  revert st. induction servers as [|server servers IH]; intros st.
  - exists (fs FS st), [], false, [], []. destruct st as [disk h]. cbn.
    rewrite app_nil_r. repeat split; try reflexivity; discriminate.
  - destruct (tryServer_spec file filePath server st)
      as (disk1 & tail & ok1 & Hstep & Hreq1 & Hfail1 & Hdl1 & Hall1).
    cbn [Download.tryServers]. unfold bind at 1. rewrite Hstep.
    destruct ok1.
    + exists disk1, (DownloadBlob server (sha256 file) :: tail), true, [server], servers.
      split; [reflexivity|]. split; [reflexivity|]. split.
      { unfold requests in *. cbn [omap list_omap]. rewrite Hreq1. reflexivity. }
      split.
      { unfold failedLines in *. cbn [omap list_omap]. exact Hfail1. }
      split.
      { intros _. exists [], server. split; [reflexivity|].
        unfold downloadedLines in *. cbn [omap list_omap]. exact Hdl1. }
      split; [discriminate|].
      intros Hdown. destruct (Hall1 (Hdown _ _ _)) as [Hok _]. discriminate Hok.
    + destruct (IH {| fs := disk1;
                      history := history FS st ++ DownloadBlob server (sha256 file) :: tail |})
        as (disk2 & new & ok & tried & rest & Hrest & Hsplit & Hreq & Hfail & Hyes & Hno & Hall).
      cbn [fs history] in *. rewrite Hrest.
      exists disk2, (DownloadBlob server (sha256 file) :: tail ++ new), ok,
        (server :: tried), rest.
      split; [rewrite <- app_assoc; reflexivity|].
      split; [rewrite Hsplit; reflexivity|]. split.
      { unfold requests in *. cbn [omap list_omap]. rewrite omap_app, Hreq1, Hreq.
        reflexivity. }
      split.
      { unfold failedLines in *. cbn [omap list_omap]. rewrite omap_app, Hfail1, Hfail.
        reflexivity. }
      split.
      { intros Hok. destruct (Hyes Hok) as (before & s & -> & Hdl).
        exists (server :: before), s. split; [reflexivity|].
        unfold downloadedLines in *. cbn [omap list_omap]. rewrite omap_app, Hdl1, Hdl.
        reflexivity. }
      split.
      { intros Hok. destruct (Hno Hok) as [-> Hdl]. split; [reflexivity|].
        unfold downloadedLines in *. cbn [omap list_omap]. rewrite omap_app, Hdl1, Hdl.
        reflexivity. }
      intros Hdown. destruct (Hall Hdown) as [-> ->].
      destruct (Hall1 (Hdown _ _ _)) as [_ ->]. split; reflexivity.
Qed.

Hypothesis nothing_delivered : forall h s sha, exists e, downloadBlob FS w h s sha = inl e.

(** When no server delivers, a file whose folder exists is asked for on
    every server, the disk is left as it was, and the file gets its
    "✗ Failed" line. *)
Lemma downloadFile_nothing_delivered targetFolder servers file st :
  existsSync (fs FS st) (dirname (join targetFolder (remotePath file))) = true ->
  exists new,
    downloadFile targetFolder servers file st
    = ({| fs := fs FS st; history := history FS st ++ new |}, inr tt) /\
    requests new = map (fun s => (s, sha256 file)) servers /\
    downloadedLines new = [] /\
    failedLines new = [remotePath file].
Proof.
  intros Hdir. unfold Download.downloadFile. unfold bind at 1. rewrite Hdir. unfold ret at 1.
  destruct (tryServers_spec file (join targetFolder (remotePath file)) servers st)
    as (disk & new & ok & tried & rest & Hrun & Hsplit & Hreq & Hfail & _ & Hno & Hall).
  destruct (Hall nothing_delivered) as [-> ->]. destruct (Hno eq_refl) as [-> Hdl].
  rewrite app_nil_r in Hsplit. subst tried.
  unfold bind. rewrite Hrun. unfold act, modify. cbn [fs history].
  exists (new ++ [Console (NoServersAvailable (remotePath file))]).
  rewrite <- app_assoc. split; [reflexivity|].
  unfold requests, downloadedLines, failedLines in *.
  rewrite !omap_app, Hreq, Hdl, Hfail. simpl. rewrite app_nil_r. repeat split.
Qed.

Lemma forEach_nothing_delivered targetFolder servers files st :
  (forall f, f ∈ files ->
             existsSync (fs FS st) (dirname (join targetFolder (remotePath f))) = true) ->
  exists new,
    forEach files (downloadFile targetFolder servers) st
    = ({| fs := fs FS st; history := history FS st ++ new |}, inr tt) /\
    downloadedLines new = [] /\
    failedLines new = map remotePath files /\
    length (requests new) = length files * length servers.
Proof.
  revert st. induction files as [|f files IH]; intros st Hdirs.
  - exists []. destruct st as [disk h]. cbn. rewrite app_nil_r. repeat split.
  - destruct (downloadFile_nothing_delivered targetFolder servers f st) as
      (new1 & Hrun1 & Hreq1 & Hdl1 & Hfail1).
    { apply Hdirs. left. }
    destruct (IH {| fs := fs FS st; history := history FS st ++ new1 |}) as
      (new2 & Hrun2 & Hdl2 & Hfail2 & Hreq2).
    { intros f' Hf'. cbn [fs]. apply Hdirs. right. exact Hf'. }
    cbn [fs history] in Hrun2.
    exists (new1 ++ new2). cbn [forEach]. unfold bind. rewrite Hrun1, Hrun2.
    rewrite <- app_assoc. split; [reflexivity|].
    unfold requests, downloadedLines, failedLines in *.
    rewrite !omap_app, Hdl1, Hdl2, Hfail1, Hfail2, length_app, Hreq1, Hreq2, length_map.
    split; [reflexivity|]. split; [reflexivity|]. simpl. lia.
Qed.

End Fs.

End DownloadFacts.

Import DownloadFacts CommandExamples.

(** ** Properties of the download loop *)

(** X12: a file is asked for on the servers in their configured order,
    and only up to the first server whose download and write both work:
    no later server is contacted.  The file gets exactly one report: the
    "✓ Downloaded" line naming that server, or, when every server was
    tried in vain, the "✗ Failed" line.  No error of a server or of the
    write leaves the loop. *)
Theorem download_stops_at_first_success
    FS existsSync join dirname (w : Download.World FS) targetFolder servers file st :
  existsSync (Download.fs FS st) (dirname (join targetFolder (remotePath file))) = true \/
  snd (Download.mkdirSync FS w (Download.fs FS st)
         (dirname (join targetFolder (remotePath file)))) = None ->
  exists st' new tried rest,
    Download.downloadFile FS existsSync join dirname w targetFolder servers file st
    = (st', inr tt) /\
    Download.history FS st' = Download.history FS st ++ new /\
    servers = tried ++ rest /\
    Download.requests new = map (fun s => (s, sha256 file)) tried /\
    ((exists before s, tried = before ++ [s] /\
                       Download.downloadedLines new = [(remotePath file, s)] /\
                       Download.failedLines new = []) \/
     (rest = [] /\
      Download.downloadedLines new = [] /\
      Download.failedLines new = [remotePath file])).
Proof.
  intros Hdir.
  set (dir := dirname (join targetFolder (remotePath file))) in *.
  assert (Hprep : exists st1 made,
             (fun st0 => if existsSync (Download.fs FS st0) dir
                         then ret tt st0
                         else Download.fsCall FS (Download.Mkdir dir)
                                (fun fs => Download.mkdirSync FS w fs dir) st0) st
             = (st1, inr tt) /\
             Download.history FS st1 = Download.history FS st ++ made /\
             Download.requests made = [] /\ Download.downloadedLines made = [] /\
             Download.failedLines made = []).
  { cbn beta. destruct (existsSync (Download.fs FS st) dir) eqn:Hex.
    - exists st, []. unfold ret. rewrite app_nil_r. repeat split.
    - destruct Hdir as [Hdir | Hmk]; [discriminate Hdir|].
      unfold Download.fsCall.
      destruct (Download.mkdirSync FS w (Download.fs FS st) dir) as [disk err].
      simpl in Hmk. subst err. eexists _, [Download.Mkdir dir]. cbn. repeat split. }
  destruct Hprep as (st1 & made & Hprep & Hh1 & Hr1 & Hd1 & Hf1).
  destruct (tryServers_spec FS w file (join targetFolder (remotePath file)) servers st1)
    as (disk & new & ok & tried & rest & Hrun & Hsplit & Hreq & Hfail & Hyes & Hno & _).
  unfold Download.downloadFile. fold dir. unfold bind at 1. rewrite Hprep.
  unfold bind. rewrite Hrun. destruct ok.
  - destruct (Hyes eq_refl) as (before & s & Htried & Hdl).
    eexists _, (made ++ new), tried, rest. unfold ret.
    split; [reflexivity|]. cbn [Download.history]. rewrite Hh1, <- app_assoc.
    split; [reflexivity|]. split; [exact Hsplit|].
    unfold Download.requests, Download.downloadedLines, Download.failedLines in *.
    rewrite !omap_app, Hr1, Hd1, Hf1, Hreq, Hdl, Hfail.
    split; [reflexivity|]. left. exists before, s. repeat split. exact Htried.
  - destruct (Hno eq_refl) as [Hrest Hdl].
    unfold Download.act, modify. cbn [Download.fs Download.history].
    eexists _, (made ++ new ++ [Download.Console (Download.NoServersAvailable (remotePath file))]),
      tried, rest.
    split; [reflexivity|]. cbn [Download.history]. rewrite Hh1, <- !app_assoc.
    split; [reflexivity|]. split; [exact Hsplit|].
    unfold Download.requests, Download.downloadedLines, Download.failedLines in *.
    rewrite !omap_app, Hr1, Hd1, Hf1, Hreq, Hdl, Hfail. simpl. rewrite app_nil_r.
    split; [reflexivity|]. right. repeat split. exact Hrest.
Qed.

Lemma download_stops_at_first_success_witness :
  Download.requests
    (Download.history _
       (fst (Download.downloadFile _ onDisk joinPath folderOf secondServerDelivers
               "site" threeServers changedHtml emptyDisk)))
  = [("https://one.example", "a1"); ("https://two.example", "a1")] /\
  exists st' new tried rest,
    Download.downloadFile _ onDisk joinPath folderOf secondServerDelivers
      "site" threeServers changedHtml emptyDisk = (st', inr tt) /\
    Download.history _ st' = Download.history _ emptyDisk ++ new /\
    threeServers = tried ++ rest /\
    Download.requests new = map (fun s => (s, sha256 changedHtml)) tried.
Proof.
  split; [vm_compute; reflexivity|].
  destruct (download_stops_at_first_success _ onDisk joinPath folderOf secondServerDelivers
              "site" threeServers changedHtml emptyDisk (or_introl eq_refl))
    as (st' & new & tried & rest & Hrun & Hh & Hsplit & Hreq & _).
  exists st', new, tried, rest. repeat split; assumption.
Defined.

(** X13: the summary of a download counts the files that are on disk,
    not the files that were fetched.  When no server delivers anything
    and every file to fetch already has a local copy (a changed file),
    every file gets its "✗ Failed" line, nothing is written, and yet the
    summary reports all of them as successfully downloaded and none as
    failed; the exit code is 0. *)
Theorem download_summary_counts_files_on_disk
    FS existsSync join dirname (w : Download.World FS) targetFolder servers toTransfer st :
  (forall h s sha, exists e, Download.downloadBlob FS w h s sha = inl e) ->
  (forall f, f ∈ toTransfer ->
             existsSync (Download.fs FS st) (dirname (join targetFolder (remotePath f))) = true /\
             existsSync (Download.fs FS st) (join targetFolder (remotePath f)) = true) ->
  exists body,
    Download.downloadAll FS existsSync join dirname w targetFolder servers toTransfer st
    = ({| Download.fs := Download.fs FS st;
          Download.history :=
            Download.history FS st ++ body
            ++ [Download.Console Download.DownloadSummary;
                Download.Console (Download.TotalFiles (length toTransfer));
                Download.Console (Download.SuccessfullyDownloaded (length toTransfer));
                Download.Console (Download.FailedFiles 0)] |}, inr 0) /\
    Download.failedLines body = map remotePath toTransfer /\
    Download.downloadedLines body = [] /\
    length (Download.requests body) = length toTransfer * length servers.
Proof.
  intros Hdown Hdisk.
  destruct (forEach_nothing_delivered FS existsSync join dirname w Hdown targetFolder servers
              toTransfer
              {| Download.fs := Download.fs FS st;
                 Download.history := Download.history FS st
                                     ++ [Download.Console Download.DownloadingFiles] |})
    as (new & Hrun & Hdl & Hfail & Hreq).
  { intros f Hf. cbn [Download.fs]. apply (Hdisk f Hf). }
  cbn [Download.fs Download.history] in Hrun.
  assert (Hcount : Download.successfulCount FS existsSync join targetFolder toTransfer
                     (Download.fs FS st) = length toTransfer).
  { unfold Download.successfulCount.
    assert (Hnone : List.filter
                      (fun f => negb (existsSync (Download.fs FS st)
                                        (join targetFolder (remotePath f)))) toTransfer = []).
    { clear - Hdisk. induction toTransfer as [|f files IH]; [reflexivity|]. simpl.
      rewrite (proj2 (Hdisk f ltac:(left))). simpl. apply IH.
      intros f' Hf'. apply Hdisk. right. exact Hf'. }
    rewrite Hnone. simpl. lia. }
  exists (Download.Console Download.DownloadingFiles :: new).
  unfold Download.downloadAll, bind, Download.act, modify, ret.
  cbn [Download.fs Download.history]. rewrite Hrun. cbn [Download.fs Download.history].
  rewrite Hcount, Nat.sub_diag, <- !app_assoc. cbn [app].
  split; [reflexivity|].
  unfold Download.requests, Download.downloadedLines, Download.failedLines in *.
  cbn [omap list_omap]. repeat split; assumption.
Qed.

Lemma download_summary_counts_files_on_disk_witness :
  exists body,
    Download.downloadAll _ onDisk joinPath folderOf nothingDelivered
      "site" threeServers [changedHtml] staleDisk
    = ({| Download.fs := Download.fs _ staleDisk;
          Download.history :=
            Download.history _ staleDisk ++ body
            ++ [Download.Console Download.DownloadSummary;
                Download.Console (Download.TotalFiles 1);
                Download.Console (Download.SuccessfullyDownloaded 1);
                Download.Console (Download.FailedFiles 0)] |}, inr 0) /\
    Download.failedLines body = ["/index.html"].
Proof.
  destruct (download_summary_counts_files_on_disk _ onDisk joinPath folderOf nothingDelivered
              "site" threeServers [changedHtml] staleDisk)
    as (body & Hrun & Hfail & _).
  - intros h s sha. exists (External "HTTP 404"). reflexivity.
  - intros f Hf. apply list_elem_of_singleton in Hf. subst f. split; reflexivity.
  - exists body. split; [exact Hrun | exact Hfail].
Defined.

(** ** Facts about the whole purge loop *)

Module PurgeLoopFacts.
Import Cli PurgeFacts PurgeObservations.

Section Loop.
Variable w : World.
Variable servers : list string.

Lemma purgeFile_sign_error file ev e h :
  event file = Some ev ->
  createDeleteAuth w h (sha256 file) = inl e ->
  purgeFile w servers file h = (h ++ [CreateDeleteAuth (sha256 file)], inl e).
Proof.
  intros Hev Hsign. unfold purgeFile. rewrite Hev. unfold bind, perform.
  rewrite Hsign. reflexivity.
Qed.

(** The loop over the files, for any world: what it did is made of the
    files of the list, in their order; it stops only at an authorization
    that throws. *)
Lemma purgeLoop_spec files h :
  exists new r done rest,
    forEach files (purgeFile w servers) h = (h ++ new, r) /\
    files = done ++ rest /\
    retractions new = eventsOf done /\
    deletionTargets new = targetsOf servers done /\
    match r with
    | inr _ => rest = [] /\ signings new = hashesOf done
    | inl e => exists f ev hist after,
                 rest = f :: after /\ event f = Some ev /\
                 createDeleteAuth w hist (sha256 f) = inl e /\
                 signings new = hashesOf done ++ [sha256 f]
    end.
Proof.
  revert h. induction files as [|f files IH]; intros h.
  - exists [], (inr tt), [], []. cbn. unfold ret. rewrite app_nil_r. repeat split.
  - destruct (event f) as [ev|] eqn:Hev.
    + destruct (createDeleteAuth w h (sha256 f)) as [e|auth] eqn:Hsign.
      * exists [CreateDeleteAuth (sha256 f)], (inl e), [], (f :: files).
        cbn [forEach]. unfold bind. rewrite (purgeFile_sign_error f ev e h Hev Hsign).
        split; [reflexivity|]. split; [reflexivity|]. split; [reflexivity|].
        split; [reflexivity|]. exists f, ev, h, files. repeat split; assumption.
      * destruct (purgeFile_spec w servers f ev auth h Hev Hsign)
          as (dels & after & Hfile & Hdel & Hsig & Hret & _).
        destruct (IH (h ++ CreateDeleteAuth (sha256 f) :: dels
                        ++ [Console (DeletingEvent (id ev)); EventDelete ev; Console after]))
          as (new & r & done & rest & Hrun & Hsplit & Hretr & Htargets & Hres).
        exists (CreateDeleteAuth (sha256 f) :: dels
                  ++ [Console (DeletingEvent (id ev)); EventDelete ev; Console after] ++ new),
          r, (f :: done), rest.
        split.
        { rewrite (forEach_step _ _ _ _ _ Hfile), Hrun. f_equal.
          rewrite <- !app_assoc. cbn [app]. rewrite <- !app_assoc. reflexivity. }
        split; [rewrite Hsplit; reflexivity|].
        assert (Hr : retractions (CreateDeleteAuth (sha256 f) :: dels
                        ++ [Console (DeletingEvent (id ev)); EventDelete ev; Console after]
                        ++ new) = ev :: retractions new).
        { unfold retractions in *. cbn [omap list_omap]. rewrite !omap_app, Hret.
          reflexivity. }
        assert (Hd : deletions (CreateDeleteAuth (sha256 f) :: dels
                        ++ [Console (DeletingEvent (id ev)); EventDelete ev; Console after]
                        ++ new)
                     = map (fun s => (s, sha256 f, auth)) servers ++ deletions new).
        { unfold deletions in *. cbn [omap list_omap]. rewrite !omap_app, Hdel.
          reflexivity. }
        assert (Hs : signings (CreateDeleteAuth (sha256 f) :: dels
                        ++ [Console (DeletingEvent (id ev)); EventDelete ev; Console after]
                        ++ new) = sha256 f :: signings new).
        { unfold signings in *. cbn [omap list_omap]. rewrite !omap_app, Hsig.
          reflexivity. }
        split.
        { rewrite Hr, Hretr. unfold eventsOf. cbn [omap list_omap]. rewrite Hev.
          reflexivity. }
        split.
        { unfold deletionTargets in *. rewrite Hd, map_app, Htargets.
          unfold targetsOf. cbn [flat_map]. rewrite Hev. f_equal.
          rewrite <- list_fmap_compose. reflexivity. }
        destruct r as [e|[]].
        -- destruct Hres as (f' & ev' & hist & after' & -> & Hev' & Hsign' & Hsigs).
           exists f', ev', hist, after'. split; [reflexivity|]. split; [exact Hev'|].
           split; [exact Hsign'|]. rewrite Hs, Hsigs. unfold hashesOf.
           cbn [omap list_omap]. rewrite Hev. reflexivity.
        -- destruct Hres as [-> Hsigs]. split; [reflexivity|].
           rewrite Hs, Hsigs. unfold hashesOf. cbn [omap list_omap]. rewrite Hev.
           reflexivity.
    + assert (Hfile : purgeFile w servers f h = (h, inr tt))
        by (unfold purgeFile; rewrite Hev; reflexivity).
      destruct (IH h) as (new & r & done & rest & Hrun & Hsplit & Hretr & Htargets & Hres).
      exists new, r, (f :: done), rest.
      split; [rewrite (forEach_step _ _ _ _ _ Hfile); exact Hrun|].
      split; [rewrite Hsplit; reflexivity|].
      split; [rewrite Hretr; unfold eventsOf; cbn [omap list_omap]; rewrite Hev; reflexivity|].
      split; [rewrite Htargets; unfold targetsOf; cbn [flat_map]; rewrite Hev; reflexivity|].
      destruct r as [e|[]].
      * destruct Hres as (f' & ev' & hist & after' & -> & Hev' & Hsign' & Hsigs).
        exists f', ev', hist, after'. split; [reflexivity|]. split; [exact Hev'|].
        split; [exact Hsign'|]. rewrite Hsigs. unfold hashesOf.
        cbn [omap list_omap]. rewrite Hev. reflexivity.
      * destruct Hres as [-> Hsigs]. split; [reflexivity|].
        rewrite Hsigs. unfold hashesOf. cbn [omap list_omap]. rewrite Hev. reflexivity.
Qed.


End Loop.

End PurgeLoopFacts.

Import PurgeObservations PurgeLoopFacts.

(** ** Properties of the whole purge loop *)


(** X15: as long as every delete authorization is obtained, the purge
    visits every file of the list that has an event, in list order: one
    authorization per file, one deletion per file and configured server,
    one retraction per file.  This holds whatever the servers and the
    relays answer, and the command then reports success and exits with
    code 0 even if every deletion and every retraction failed. *)
Theorem purge_visits_every_file w servers toDelete h :
  (forall hist sha, exists auth, createDeleteAuth w hist sha = inr auth) ->
  exists new,
    purgeAndExit w servers true toDelete h = (h ++ new ++ [Console Success], inr 0) /\
    signings new = hashesOf toDelete /\
    deletionTargets new = targetsOf servers toDelete /\
    retractions new = eventsOf toDelete.
Proof.
  intros Hsign.
  destruct (purgeLoop_spec w servers toDelete h)
    as (new & r & done & rest & Hrun & Hsplit & Hretr & Htargets & Hres).
  destruct r as [e|[]].
  - destruct Hres as (f & ev & hist & after & _ & _ & Hfail & _).
    destruct (Hsign hist (sha256 f)) as [auth Hok]. rewrite Hok in Hfail. discriminate Hfail.
  - destruct Hres as [-> Hsigs]. rewrite app_nil_r in Hsplit. subst done.
    exists new. split; [|split; [exact Hsigs | split; [exact Htargets | exact Hretr]]].
    unfold purgeAndExit, tryCatch, bind, purge. rewrite Hrun.
    unfold print, modify, ret. rewrite <- app_assoc. reflexivity.
Qed.

Lemma purge_visits_every_file_witness :
  exists new,
    purgeAndExit flakyWorld twoServers true [oldHtml; strayHtml; oldHtml] []
    = ([] ++ new ++ [Console Success], inr 0) /\
    deletionTargets new
    = [("https://one.example", "c3"); ("https://two.example", "c3");
       ("https://one.example", "c3"); ("https://two.example", "c3")].
Proof.
  destruct (purge_visits_every_file flakyWorld twoServers [oldHtml; strayHtml; oldHtml] [])
    as (new & Hrun & _ & Htargets & _).
  - intros hist sha. eexists. reflexivity.
  - exists new. split; [exact Hrun | exact Htargets].
Defined.

(** X16: the exit code of the purge step is decided by the delete
    authorizations alone.  The step never throws; it ends with the
    success line and code 0, or with the error line and code 1, and
    code 1 means that the purge option was set and that the
    authorization of one file with an event threw that very error, this
    being the last authorization asked for.  No failed deletion and no
    failed retraction leads to code 1. *)
Theorem purge_exit_code w servers purgeOption toDelete h :
  exists new line code,
    purgeAndExit w servers purgeOption toDelete h = (h ++ new ++ [Console line], inr code) /\
    ((code = 0 /\ line = Success) \/
     (code = 1 /\ purgeOption = true /\
      exists e f ev hist,
        line = FailedToFetchOnlineFiles e /\
        f ∈ toDelete /\ event f = Some ev /\
        createDeleteAuth w hist (sha256 f) = inl e /\
        last (signings new) = Some (sha256 f))).
Proof.
  unfold purgeAndExit, tryCatch, bind, purge. destruct purgeOption.
  2:{ exists [], Success, 0. unfold ret, print, modify. cbn. split; [reflexivity | by left]. }
  destruct (purgeLoop_spec w servers toDelete h)
    as (new & r & done & rest & Hrun & Hsplit & Hretr & Htargets & Hres).
  rewrite Hrun. destruct r as [e|[]].
  - destruct Hres as (f & ev & hist & after & -> & Hev & Hfail & Hsigs).
    exists new, (FailedToFetchOnlineFiles e), 1. unfold print, modify, ret.
    split; [rewrite <- app_assoc; reflexivity|]. right.
    split; [reflexivity|]. split; [reflexivity|]. exists e, f, ev, hist.
    split; [reflexivity|]. split.
    { rewrite Hsplit. apply elem_of_app. right. left. }
    split; [exact Hev|]. split; [exact Hfail|]. rewrite Hsigs. apply last_snoc.
  - exists new, Success, 0. unfold print, modify, ret.
    split; [rewrite <- app_assoc; reflexivity | by left].
Qed.

(** ** Facts about the upload command *)

Module CommandFacts.
Import Command.

(** A history that ends with one more line. *)
Lemma history_snoc {A} (h mid whole : list A) x :
  whole = h ++ mid -> whole ++ [x] = h ++ mid ++ [x].
Proof. intros ->. symmetry. apply app_assoc. Qed.

Lemma uploadCalls_app a b : uploadCalls (a ++ b) = uploadCalls a ++ uploadCalls b.
Proof. apply omap_app. Qed.

Lemma purgeActions_app a b : purgeActions (a ++ b) = purgeActions a ++ purgeActions b.
Proof. apply omap_app. Qed.

Lemma remoteQueries_app a b : remoteQueries (a ++ b) = remoteQueries a + remoteQueries b.
Proof. unfold remoteQueries. rewrite List.filter_app, length_app. reflexivity. Qed.

Lemma uploadCalls_Purge actions : uploadCalls (map Purge actions) = [].
Proof. induction actions as [|a actions IH]; [reflexivity | exact IH]. Qed.

Lemma purgeActions_Purge actions : purgeActions (map Purge actions) = actions.
Proof.
  induction actions as [|a actions IH]; [reflexivity|].
  cbn. unfold purgeActions in IH. rewrite IH. reflexivity.
Qed.

Lemma remoteQueries_Purge actions : remoteQueries (map Purge actions) = 0.
Proof. induction actions as [|a actions IH]; [reflexivity | exact IH]. Qed.

Section Block.
Variable w : World.
Variable project : ProjectData.
Variable options : Options.

(** The uploads step: at most one call, which settles or throws. *)
Lemma uploads_spec files bs h :
  exists calls r,
    uploads w options files bs h = (h ++ calls, r) /\
    r <> inr false /\
    uploadCalls calls = (if 0 <? length files then [(files, bs)] else []) /\
    purgeActions calls = [] /\
    remoteQueries calls = 0 /\
    (forall e, r = inl e ->
       files <> [] /\
       Upload.completion
         (Upload.processUploads (activePubkey w) files bs (uploadWorld w)
            {| Upload.concurrency := Some (Cli.concurrencyOption (concurrency options)) |}
            (uploadSchedule w)) = Upload.Throws e).
Proof.
  unfold uploads. destruct (0 <? length files) eqn:Hlen.
  2:{ exists [], (inr true). unfold ret. rewrite app_nil_r.
      do 5 (split; [done|]). intros e He. discriminate He. }
  assert (Hne : files <> []) by (intros ->; discriminate Hlen).
  pose proof (processUploads_cases (activePubkey w) files bs (uploadWorld w)
                {| Upload.concurrency := Some (Cli.concurrencyOption (concurrency options)) |}
                (uploadSchedule w)) as Hcases.
  destruct (Upload.completion _) as [e| |r|] eqn:Hc; [| | |destruct Hcases].
  - eexists _, _. split; [reflexivity|]. do 4 (split; [done|]).
    intros e' [= <-]. split; [exact Hne | reflexivity].
  - eexists _, _. split; [reflexivity|]. do 4 (split; [done|]). intros e' He. discriminate He.
  - eexists _, _. split; [reflexivity|]. do 4 (split; [done|]). intros e' He. discriminate He.
Qed.

(** The purge step of the command is the purge loop on the servers found. *)
Lemma command_purgeLoop_spec bs files h :
  exists actions r,
    purgeLoop w options bs files h = (h ++ map Purge actions, r) /\
    Cli.purge (purgeWorld w) bs (purge options) files [] = (actions, r) /\
    (purge options = false -> actions = [] /\ r = inr tt).
Proof.
  unfold purgeLoop.
  destruct (Cli.purge (purgeWorld w) bs (purge options) files []) as [actions r] eqn:Hp.
  exists actions, r. split; [reflexivity|]. split; [reflexivity|].
  intros Hoff. rewrite Hoff in Hp. unfold Cli.purge, ret in Hp. injection Hp as <- <-. done.
Qed.

(** The copy of the 404 page: at most one step, a [copyFile]. *)
Lemma copyFallback_spec folder h :
  exists steps r,
    copyFallback w project options folder h = (h ++ steps, r) /\
    uploadCalls steps = [] /\
    purgeActions steps = [] /\
    remoteQueries steps = 0 /\
    (FindAllLocalFiles folder ∉ steps) /\
    (forall e, r = inl e -> exists src dst, copyFile w src dst = inl e).
Proof.
  unfold copyFallback.
  destruct (orString _ _) as [fb|]; [destruct (JS.string_truthy fb)|].
  - cbn [fallbackPaths]. unfold call. eexists _, _. split; [reflexivity|].
    do 3 (split; [reflexivity|]). split; [set_solver|]. intros e He. eauto.
  - exists [], (inr tt). unfold ret. rewrite app_nil_r. do 5 (split; [set_solver|]).
    intros e He. discriminate He.
  - exists [], (inr tt). unfold ret. rewrite app_nil_r. do 5 (split; [set_solver|]).
    intros e He. discriminate He.
Qed.



End Block.

End CommandFacts.

Import CommandFacts.

(** ** Properties of the upload command *)

(** X17: an empty local folder ends the upload command with exit code 1
    before anything is transferred: the remote file list is not queried,
    no upload is started and nothing is purged.  When the folder was
    read at all, the error printed is the one about the empty folder. *)
Theorem empty_folder_exits_before_any_transfer w project options folder h :
  Command.findAllLocalFiles w folder = inr [] ->
  exists new e,
    Command.run w project options folder h
    = (h ++ new ++ [Command.Console (Command.FailedToFetchOnlineFiles e)],
       inr (Command.ExitCode 1)) /\
    Command.remoteQueries new = 0 /\
    Command.uploadCalls new = [] /\
    Command.purgeActions new = [] /\
    (Command.FindAllLocalFiles folder ∈ new -> e = Command.noFilesFound folder).
Proof.
  intros Hempty.
  unfold Command.run, tryCatch, Command.tryBody, bind, Command.call, Command.print, modify,
    throw, ret.
  destruct (Command.findBlossomServers w _ _) as [e|bs] eqn:Hbs.
  { eexists _, e. split.
    - f_equal. apply history_snoc. reflexivity.
    - do 3 (split; [reflexivity|]). intros Hin. set_solver. }
  match goal with |- context [Command.copyFallback _ _ _ _ ?hh] =>
    destruct (copyFallback_spec w project options folder hh)
      as (steps & r & -> & Hup & Hpurge & Hq & Hnot & _)
  end.
  destruct r as [e|[]].
  - eexists _, e. split.
    + f_equal. apply history_snoc. rewrite <- !app_assoc. reflexivity.
    + rewrite remoteQueries_app, uploadCalls_app, purgeActions_app, Hup, Hpurge, Hq.
      do 3 (split; [reflexivity|]). intros Hin. set_solver.
  - rewrite Hempty. cbn. eexists _, _. split.
    + f_equal. apply history_snoc. rewrite <- !app_assoc. reflexivity.
    + rewrite !remoteQueries_app, !uploadCalls_app, !purgeActions_app, Hup, Hpurge, Hq.
      do 3 (split; [reflexivity|]). reflexivity.
Qed.

Lemma empty_folder_exits_before_any_transfer_witness :
  exists new e,
    Command.run (brokenSite []) noProject (uploadOptions "5" true) "site" []
    = ([] ++ new ++ [Command.Console (Command.FailedToFetchOnlineFiles e)],
       inr (Command.ExitCode 1)) /\
    Command.remoteQueries new = 0 /\
    Command.uploadCalls new = [] /\
    Command.purgeActions new = [] /\
    (Command.FindAllLocalFiles "site" ∈ new -> e = Command.noFilesFound "site").
Proof.
  apply (empty_folder_exits_before_any_transfer
           (brokenSite []) noProject (uploadOptions "5" true) "site" []).
  reflexivity.
Defined.

Ltac history_of_exit :=
  f_equal; apply history_snoc; rewrite <- ?app_assoc; reflexivity.

Ltac observe_history :=
  rewrite ?uploadCalls_app, ?purgeActions_app, ?remoteQueries_app,
    ?uploadCalls_Purge, ?purgeActions_Purge, ?remoteQueries_Purge.

(** X18: however the outside world answers, the upload command ends
    with exit code 0 after the success line or with exit code 1 after
    the error line; it never stays pending.  On the way it queries the
    remote file list at most once and calls [processUploads] at most
    once, on a non-empty list that is the one computed from the
    comparison and with the servers [findBlossomServers] returned, and
    it purges nothing without the purge option. *)
Theorem upload_command_ends_with_exit_code w project options folder h :
  exists new line code,
    Command.run w project options folder h
    = (h ++ new ++ [Command.Console line], inr (Command.ExitCode code)) /\
    ((code = 0 /\ line = Command.Success) \/
     (code = 1 /\ exists e, line = Command.FailedToFetchOnlineFiles e)) /\
    length (Command.uploadCalls new) <= 1 /\
    Command.remoteQueries new <= 1 /\
    (Command.purge options = false -> Command.purgeActions new = []) /\
    (forall files bs, (files, bs) ∈ Command.uploadCalls new ->
       files <> [] /\
       Command.findBlossomServers w
         (Command.publishServerList options || Command.projectPublishServerList project)
         (Command.configuredServers project options) = inr bs /\
       exists localFiles onlineFiles c,
         Command.compareFileLists w localFiles onlineFiles = inr c /\
         files = Command.filesToUpload options c).
Proof.
  unfold Command.run, tryCatch, Command.tryBody, bind, Command.call, Command.print, modify,
    throw, ret.
  destruct (Command.findBlossomServers w _ _) as [e|bs] eqn:Hbs.
  { eexists _, _, 1. split; [history_of_exit|]. split; [right; eauto|].
    cbn. split; [lia|]. split; [lia|]. split; [reflexivity|]. intros files bs Hin. inversion Hin. }
  match goal with |- context [Command.copyFallback _ _ _ _ ?hh] =>
    destruct (copyFallback_spec w project options folder hh)
      as (steps & r & -> & Hup & Hpurge & Hq & _ & _)
  end.
  destruct r as [e|[]].
  { eexists _, _, 1. split; [history_of_exit|]. split; [right; eauto|].
    observe_history. rewrite Hup, Hpurge, Hq. cbn.
    split; [lia|]. split; [lia|]. split; [reflexivity|]. intros files bs' Hin. inversion Hin. }
  destruct (Command.findAllLocalFiles w folder) as [e|localFiles] eqn:Hlocal.
  { eexists _, _, 1. split; [history_of_exit|]. split; [right; eauto|].
    observe_history. rewrite Hup, Hpurge, Hq. cbn.
    split; [lia|]. split; [lia|]. split; [reflexivity|]. intros files bs' Hin. inversion Hin. }
  destruct (length localFiles =? 0) eqn:Hlen.
  { eexists _, _, 1. split; [history_of_exit|]. split; [right; eauto|].
    observe_history. rewrite Hup, Hpurge, Hq. cbn.
    split; [lia|]. split; [lia|]. split; [reflexivity|]. intros files bs' Hin. inversion Hin. }
  destruct (Command.findRemoteFiles w) as [e|onlineFiles] eqn:Hremote.
  { eexists _, _, 1. split; [history_of_exit|]. split; [right; eauto|].
    observe_history. rewrite Hup, Hpurge, Hq. cbn.
    split; [lia|]. split; [lia|]. split; [reflexivity|]. intros files bs' Hin. inversion Hin. }
  destruct (Command.compareFileLists w localFiles onlineFiles) as [e|c] eqn:Hcmp.
  { eexists _, _, 1. split; [history_of_exit|]. split; [right; eauto|].
    observe_history. rewrite Hup, Hpurge, Hq. cbn.
    split; [lia|]. split; [lia|]. split; [reflexivity|]. intros files bs' Hin. inversion Hin. }
  match goal with |- context [Command.uploads _ _ ?fs ?b ?hh] =>
    destruct (uploads_spec w options fs b hh)
      as (calls & r & -> & Hsettles & Hcalls & Hnone & Hqcalls & _)
  end.
  assert (Hcount : length (Command.uploadCalls calls) <= 1).
  { rewrite Hcalls. destruct (0 <? _); simpl; lia. }
  assert (Horigin : forall files bs', (files, bs') ∈ Command.uploadCalls calls ->
            files <> [] /\
            Command.findBlossomServers w
              (Command.publishServerList options || Command.projectPublishServerList project)
              (Command.configuredServers project options) = inr bs' /\
            exists localFiles onlineFiles c,
              Command.compareFileLists w localFiles onlineFiles = inr c /\
              files = Command.filesToUpload options c).
  { intros files bs' Hin. rewrite Hcalls in Hin.
    destruct (0 <? length (Command.filesToUpload options c)) eqn:Hpos; [|inversion Hin].
    apply list_elem_of_singleton in Hin. injection Hin as -> ->.
    split; [intros Hnil; rewrite Hnil in Hpos; discriminate Hpos|].
    split; [exact Hbs|]. eauto. }
  rewrite Hbs in Horigin.
  destruct r as [e|[]]; [|clear Hsettles|done].
  { eexists _, _, 1. split; [history_of_exit|]. split; [right; eauto|].
    observe_history. rewrite Hup, Hpurge, Hq, Hnone, Hqcalls. cbn.
    split; [lia|]. split; [lia|]. split; [reflexivity|].
    exact Horigin. }
  match goal with |- context [Command.purgeLoop _ _ ?b ?fs ?hh] =>
    destruct (command_purgeLoop_spec w options b fs hh) as (actions & r & -> & _ & Hoff)
  end.
  destruct r as [e|[]].
  - eexists _, _, 1. split; [history_of_exit|]. split; [right; eauto|].
    observe_history. rewrite Hup, Hpurge, Hq, Hnone, Hqcalls. cbn. rewrite app_nil_r.
    split; [lia|]. split; [lia|]. split; [|exact Horigin].
    intros Hno. apply Hoff in Hno as [-> _]. reflexivity.
  - eexists _, _, 0. split; [history_of_exit|]. split; [left; eauto|].
    observe_history. rewrite Hup, Hpurge, Hq, Hnone, Hqcalls. cbn. rewrite app_nil_r.
    split; [lia|]. split; [lia|]. split; [|exact Horigin].
    intros Hno. apply Hoff in Hno as [-> _]. reflexivity.
Qed.





(** ** Properties of the command-line arguments *)

(** X21: the comma separated options are read back entry by entry.  A
    [--servers] (or [--relays]) value made of one or more names without
    a comma, joined by commas, gives the servers (relays) of the project
    file followed by exactly these names in their order; nothing is
    trimmed or dropped, so an empty name stays an entry. *)
Theorem comma_separated_options_are_read_back names :
  names <> [] ->
  Forall (fun x => freeOf ","%char x = true) names ->
  (forall project options,
      Command.servers options = Some (joinWith ","%char names) ->
      Command.configuredServers project options
      = default [] (Command.projectServers project) ++ names) /\
  (forall projectRelays,
      Ndk.relayArguments projectRelays (Some (joinWith ","%char names))
      = default [] projectRelays ++ names).
Proof.
  intros Hne Hfree. split.
  - intros project options Hservers. unfold Command.configuredServers.
    rewrite Hservers, (splitOn_joinWith _ _ Hne Hfree). reflexivity.
  - intros projectRelays. unfold Ndk.relayArguments.
    rewrite (splitOn_joinWith _ _ Hne Hfree). reflexivity.
Qed.

Lemma comma_separated_options_are_read_back_witness :
  Command.configuredServers noProject (uploadOptions "5" false) = twoServers /\
  Ndk.relayArguments (Some ["wss://nos.lol"]) (Some "wss://relay.example,")
  = ["wss://nos.lol"; "wss://relay.example"; ""].
Proof.
  destruct (comma_separated_options_are_read_back twoServers) as [Hservers _].
  { discriminate. }
  { repeat constructor. }
  destruct (comma_separated_options_are_read_back ["wss://relay.example"; ""]) as [_ Hrelays].
  { discriminate. }
  { repeat constructor. }
  split.
  - exact (Hservers noProject (uploadOptions "5" false) eq_refl).
  - exact (Hrelays (Some ["wss://nos.lol"])).
Defined.


